(** * Aviratha-Chatbot: the Flask file processor and the dashboard extractor

    A shallow embedding of [flask_app_clean.py] (text pipeline, session and
    document tables, the /session, /upload, /documents routes) and of
    [extract_pdf_text] from [streamlit_admin_dashboard.py], with the
    properties of the specification stated over it. *)

From Stdlib Require Import NArith Ascii String.
From stdpp Require Import base option list sorting gmap.

Local Open Scope N_scope.

(** ** Python strings

    A Python [str] is a sequence of Unicode code points: a list of [N]. *)

Module Py.

Abbreviation char := N (only parsing).
Abbreviation str := (list N) (only parsing).

(** A literal, from its ASCII spelling. *)
Definition lit (s : string) : str :=
  map N_of_ascii (list_ascii_of_string s).

(** [str.isspace] on one code point, the set [str.split()] and [str.strip()]
    use: TAB..CR, FS..US, SPACE, NEL, NBSP and the Unicode space separators. *)
Definition is_space (c : char) : bool :=
  ((9 <=? c) && (c <=? 13)) || ((28 <=? c) && (c <=? 32))
  || (c =? 133) || (c =? 160) || (c =? 5760)
  || ((8192 <=? c) && (c <=? 8202))
  || (c =? 8232) || (c =? 8233) || (c =? 8239) || (c =? 8287) || (c =? 12288).

Definition SP : char := 32.
Definition LF : char := 10.
Definition CR : char := 13.
Definition TAB : char := 9.

(** [s.startswith(p)] *)
Fixpoint startswith (p s : str) : bool :=
  match p, s with
  | [], _ => true
  | x :: p', y :: s' => (x =? y) && startswith p' s'
  | _ :: _, [] => false
  end.

(** [s.replace(old, new)] for a non-empty [old]: scan from the left, replace
    each occurrence and resume after it.  [skip] counts the characters of the
    occurrence just replaced that are still under the cursor. *)
Fixpoint replace_from (old new : str) (skip : nat) (s : str) : str :=
  match s with
  | [] => []
  | c :: s' =>
      match skip with
      | S k => replace_from old new k s'
      | O =>
          if startswith old s
          then new ++ replace_from old new (pred (length old)) s'
          else c :: replace_from old new O s'
      end
  end.

Definition replace (old new s : str) : str := replace_from old new O s.

(** [s.split()]: maximal runs of non-whitespace; [cur] is the run being read. *)
Fixpoint split_from (cur : str) (s : str) : list str :=
  match s with
  | [] => match cur with [] => [] | _ => [cur] end
  | c :: s' =>
      if is_space c
      then match cur with
           | [] => split_from [] s'
           | _ => cur :: split_from [] s'
           end
      else split_from (cur ++ [c]) s'
  end.

Definition split (s : str) : list str := split_from [] s.

(** [sep.join(ws)] *)
Fixpoint join (sep : str) (ws : list str) : str :=
  match ws with
  | [] => []
  | [w] => w
  | w :: ws' => w ++ sep ++ join sep ws'
  end.

(** [s.lstrip()], [s.rstrip()], [s.strip()] *)
Fixpoint lstrip (s : str) : str :=
  match s with
  | [] => []
  | c :: s' => if is_space c then lstrip s' else s
  end.

Definition rstrip (s : str) : str := reverse (lstrip (reverse s)).

Definition strip (s : str) : str := rstrip (lstrip s).

(** The split of [s] at its last [sep], when there is one. *)
Fixpoint rcut (sep : char) (s : str) : option (str * str) :=
  match s with
  | [] => None
  | c :: s' =>
      match rcut sep s' with
      | Some (a, b) => Some (c :: a, b)
      | None => if c =? sep then Some ([], s') else None
      end
  end.

(** [s.rsplit(sep, 1)] for a one-character [sep]: one or two pieces. *)
Definition rsplit1 (sep : char) (s : str) : list str :=
  match rcut sep s with
  | Some (a, b) => [a; b]
  | None => [s]
  end.

(** [sep in s] for a one-character [sep]. *)
Definition contains (sep : char) (s : str) : bool :=
  existsb (N.eqb sep) s.

End Py.

Import Py.

(** ** The text pipeline of [flask_app_clean.py] *)

(** [clean_content(content)] *)
Definition clean_content (content : str) : str :=
  let content := replace [CR; LF] [LF] content in
  let content := replace [LF; LF; LF] [LF; LF] content in
  let content := join [SP] (split content) in
  strip content.

(** [generate_title(filename, content)] *)
Definition generate_title (filename content : str) : str :=
  let title :=
    replace (lit "-") (lit " ")
      (replace (lit "_") (lit " ") (default [] (rsplit1 46 filename !! 0%nat))) in
  take 100 title.


(** ** Exceptions

    Only the class [PyPDF2.errors.PdfReadError] is told apart by a handler;
    every other exception is used through [str(e)] alone. *)

Inductive exn : Type :=
| PdfReadError (msg : str)
| Exception (msg : str).

Definition str_of_exn (e : exn) : str :=
  match e with PdfReadError m | Exception m => m end.

(** ** PyPDF2 and the files on disk

    PyPDF2 and the UTF-8 text reader are outside the repository: a file is
    given by its size and by what each reader makes of it. *)

(** The outcome of [page.extract_text()]. *)
Inductive page : Type :=
| PageText (t : str)
| PageRaises (e : exn).

(** A [PyPDF2.PdfReader]: [reader.is_encrypted] and [reader.pages]. *)
Record PdfReader : Type := {
  is_encrypted : bool;
  pages : list page
}.

Record file_data : Type := {
  (** [os.path.getsize] *)
  st_size : N;
  (** [PyPDF2.PdfReader(file)] on the file opened in binary mode *)
  as_pdf : exn + PdfReader;
  (** [file.read()] on the file opened with [encoding='utf-8'] *)
  as_text : exn + str
}.

(** ** The two tables of documents.db, rows in insertion order *)

Module Doc.
Record row : Type := {
  id : str;
  title : str;
  content : str;
  file_name : str;
  file_type : str;
  file_size : N;
  uploaded_by : option str;
  is_public : bool;
  (** [CURRENT_TIMESTAMP], as seconds: its fixed-width text orders the same *)
  created_at : N;
  metadata : option str
}.
End Doc.

Module Sess.
Record row : Type := {
  session_id : str;
  user_id : option str;
  created_at : N;
  is_admin : bool;
  preferences : str
}.
End Sess.

Record world : Type := {
  sessions : list Sess.row;
  documents : list Doc.row;
  (** the file system, by path *)
  files : gmap (list N) file_data
}.

Definition set_sessions (w : world) (s : list Sess.row) : world :=
  {| sessions := s; documents := documents w; files := files w |}.
Definition set_documents (w : world) (d : list Doc.row) : world :=
  {| sessions := sessions w; documents := d; files := files w |}.
Definition set_files (w : world) (f : gmap (list N) file_data) : world :=
  {| sessions := sessions w; documents := documents w; files := f |}.

(** ** A computation that reads and writes the world and may raise *)

Definition M (A : Type) : Type := world → (exn + A) * world.

Definition ret {A} (a : A) : M A := λ w, (inr a, w).
Definition raise {A} (e : exn) : M A := λ w, (inl e, w).
Definition bind {A B} (m : M A) (k : A → M B) : M B :=
  λ w, match m w with
       | (inr a, w') => k a w'
       | (inl e, w') => (inl e, w')
       end.
Definition lift {A} (r : exn + A) : M A := λ w, (r, w).

#[global] Instance M_ret : MRet M := @ret.
#[global] Instance M_bind : MBind M := λ A B k m, bind m k.
#[global] Instance M_fmap : FMap M := λ A B f m, bind m (λ a, ret (f a)).

(** [try: m except Exception as e: raise Exception(prefix + str(e))] *)
Definition reraise {A} (prefix : str) (m : M A) : M A :=
  λ w, match m w with
       | (inl e, w') => (inl (Exception (prefix ++ str_of_exn e)), w')
       | r => r
       end.

Definition no_such_file (path : str) : exn :=
  Exception (lit "[Errno 2] No such file or directory: '" ++ path ++ lit "'").

(** [open(path, ...)] for reading *)
Definition open (path : str) : M file_data :=
  λ w, match files w !! path with
       | Some f => (inr f, w)
       | None => (inl (no_such_file path), w)
       end.

(** [file.save(path)] *)
Definition save (f : file_data) (path : str) : M unit :=
  λ w, (inr (), set_files w (<[path := f]> (files w))).

(** [os.path.getsize(path)] *)
Definition getsize (path : str) : M N :=
  f ← open path; ret (st_size f).

(** [os.path.exists(path)] *)
Definition exists_ (path : str) (w : world) : bool :=
  bool_decide (is_Some (files w !! path)).

(** [os.remove(path)] *)
Definition remove (path : str) : M unit :=
  λ w, match files w !! path with
       | Some _ => (inr (), set_files w (delete path (files w)))
       | None => (inl (no_such_file path), w)
       end.

(** ** Extraction *)

(** The page loop of [process_pdf]: [text += page.extract_text() + "\n"]. *)
Fixpoint process_pages (text : str) (ps : list page) : exn + str :=
  match ps with
  | [] => inr text
  | PageText t :: ps' => process_pages (text ++ t ++ [LF]) ps'
  | PageRaises e :: _ => inl e
  end.

(** [process_pdf(file_path)] *)
Definition process_pdf (file_path : str) : M str :=
  reraise (lit "Failed to process PDF: ")
    (file ← open file_path;
     pdf_reader ← lift (as_pdf file);
     text ← lift (process_pages [] (pages pdf_reader));
     match strip text with
     | [] => raise (Exception (lit "No text content extracted from PDF"))
     | _ => ret (strip text)
     end).

(** [process_text(file_path)] *)
Definition process_text (file_path : str) : M str :=
  reraise (lit "Failed to process text file: ")
    (file ← open file_path;
     text ← lift (as_text file);
     ret (strip text)).

(** The page loop of the dashboard's [extract_pdf_text]: a page that raises
    or yields nothing leaves a marker line. *)
Fixpoint extract_pages (text : str) (ps : list page) : str :=
  match ps with
  | [] => text
  | PageText [] :: ps' => extract_pages (text ++ lit "[Empty page]" ++ [LF]) ps'
  | PageText t :: ps' => extract_pages (text ++ t ++ [LF]) ps'
  | PageRaises e :: ps' =>
      extract_pages
        (text ++ lit "[Error extracting page: " ++ str_of_exn e ++ lit "]" ++ [LF])
        ps'
  end.

(** [needle in s] *)
Fixpoint infix_of (needle s : str) : bool :=
  startswith needle s
  || match s with [] => false | _ :: s' => infix_of needle s' end.

(** [extract_pdf_text(file_path)] of streamlit_admin_dashboard.py, on the
    outcome of opening the file ([inl] when [open] itself raises). *)
Definition extract_pdf_text (file : exn + file_data) : str :=
  match match file with inr f => as_pdf f | inl e => inl e end with
  | inr reader =>
      if is_encrypted reader
      then lit "[This PDF is encrypted and cannot be read without a password]"
      else extract_pages [] (pages reader)
  | inl (PdfReadError _) =>
      lit "[Error: This PDF appears to be damaged or uses unsupported features]"
  | inl (Exception error_msg) =>
      if infix_of (lit "PyCryptodome") error_msg
      then lit "[Error: This PDF requires PyCryptodome library. Install with 'pip install pycryptodome']"
      else lit "[Error extracting text: " ++ error_msg ++ lit "]"
  end.

(** ** Responses: the JSON body and the status code *)

Module Summary.
(** An element of ['documents'] in the answer of GET /documents. *)
Record t : Type := {
  id : str;
  title : str;
  fileName : str;
  fileType : str;
  fileSize : N;
  createdAt : N;
  isPublic : bool
}.
End Summary.

Module Uploaded.
(** ['document'] in the answer of POST /upload. *)
Record t : Type := {
  id : str;
  title : str;
  content : str;
  fileName : str;
  fileType : str;
  fileSize : N
}.
End Uploaded.

Inductive body : Type :=
| Failure (error : str)
| SessionCreated (sessionId token : str)
| Upload (document : Uploaded.t)
| Documents (documents : list Summary.t) (totalDocuments : nat) (totalSize : N)
| Deleted (message : str).

Definition response : Type := body * N.

(** ** Requests *)

Record session_request : Type := {
  userId : option str;
  (** [json.dumps] of the value sent, when one is *)
  userPreferences : option str
}.

Record FileStorage : Type := {
  filename : str;
  stream : file_data
}.

Record upload_request : Type := {
  Authorization : option str;
  file : option FileStorage;
  isPublic : option str
}.

(** ** Configuration *)

Definition UPLOAD_FOLDER : str := lit "uploads".
Definition ALLOWED_EXTENSIONS : list str := [lit "pdf"; lit "txt"; lit "md"].

(** [str.lower] and werkzeug's [secure_filename] are outside the repository. *)
Class Runtime : Type := {
  lower : str → str;
  secure_filename : str → str
}.

(** [auth_header.replace('Bearer ', '') if auth_header.startswith('Bearer ')
    else None] *)
Definition session_of (auth_header : str) : option str :=
  if startswith (lit "Bearer ") auth_header
  then Some (replace (lit "Bearer ") [] auth_header)
  else None.

(** ** Statements on the tables *)

(** [SELECT session_id FROM sessions WHERE session_id = ?], [fetchone()] *)
Definition select_session (session_id : str) (w : world) : option Sess.row :=
  find (λ r, bool_decide (Sess.session_id r = session_id)) (sessions w).

(** [SELECT session_id FROM sessions WHERE user_id = ?], [fetchone()] *)
Definition select_session_of_user (user_id : str) (w : world) : option Sess.row :=
  find (λ r, bool_decide (Sess.user_id r = Some user_id)) (sessions w).

(** [INSERT INTO sessions (session_id, user_id, preferences)]; [session_id]
    is the primary key. *)
Definition insert_session (session_id : str) (user_id : option str)
    (preferences : str) (now : N) : M unit :=
  λ w, match select_session session_id w with
       | Some _ =>
           (inl (Exception (lit "UNIQUE constraint failed: sessions.session_id")), w)
       | None =>
           (inr (),
            set_sessions w
              (sessions w ++
               [{| Sess.session_id := session_id; Sess.user_id := user_id;
                   Sess.created_at := now; Sess.is_admin := false;
                   Sess.preferences := preferences |}]))
       end.

(** [save_document(...)]: [INSERT INTO documents]; [id] is the primary key
    and [uuid4] the value of [str(uuid.uuid4())]. *)
Definition save_document (title content filename file_type : str) (file_size : N)
    (session_id : str) (is_public : bool) (uuid4 : str) (now : N) : M str :=
  λ w, if existsb (λ r, bool_decide (Doc.id r = uuid4)) (documents w)
       then (inl (Exception (lit "UNIQUE constraint failed: documents.id")), w)
       else
         (inr uuid4,
          set_documents w
            (documents w ++
             [{| Doc.id := uuid4; Doc.title := title; Doc.content := content;
                 Doc.file_name := filename; Doc.file_type := file_type;
                 Doc.file_size := file_size; Doc.uploaded_by := Some session_id;
                 Doc.is_public := is_public; Doc.created_at := now;
                 Doc.metadata := None |}])).

(** [WHERE uploaded_by = ? OR is_public = 1] *)
Definition visible_to (session_id : str) (r : Doc.row) : Prop :=
  Doc.uploaded_by r = Some session_id ∨ Doc.is_public r = true.

(** [ORDER BY created_at DESC]: the order of rows of equal [created_at] is not
    fixed by SQLite; the sort used here is one such order. *)
Definition newer_first (a b : Doc.row) : Prop :=
  Doc.created_at b ≤ Doc.created_at a.

#[global] Instance visible_to_dec sid r : Decision (visible_to sid r).
Proof. unfold visible_to. apply _. Defined.

#[global] Instance newer_first_dec a b : Decision (newer_first a b).
Proof. unfold newer_first. apply _. Defined.

(** The [SELECT ... FROM documents WHERE ... ORDER BY created_at DESC] of
    [get_documents]. *)
Definition select_documents (session_id : str) (w : world) : list Doc.row :=
  merge_sort newer_first (filter (visible_to session_id) (documents w)).

(** One fetched row as the dictionary appended to [documents]. *)
Definition summary (r : Doc.row) : Summary.t :=
  {| Summary.id := Doc.id r; Summary.title := Doc.title r;
     Summary.fileName := Doc.file_name r; Summary.fileType := Doc.file_type r;
     Summary.fileSize := Doc.file_size r; Summary.createdAt := Doc.created_at r;
     Summary.isPublic := Doc.is_public r |}.

(** [sum(doc['fileSize'] for doc in documents)] *)
Definition total_size (documents : list Summary.t) : N :=
  foldr (λ doc acc, Summary.fileSize doc + acc) 0 documents.

(** [SELECT id FROM documents WHERE id = ? AND uploaded_by = ?], [fetchone()] *)
Definition select_owned (document_id session_id : str) (w : world) : option Doc.row :=
  find (λ r, bool_decide (Doc.id r = document_id ∧ Doc.uploaded_by r = Some session_id))
    (documents w).

(** [DELETE FROM documents WHERE id = ?] *)
Definition delete_row (document_id : str) (w : world) : world :=
  set_documents w (filter (λ r, Doc.id r ≠ document_id) (documents w)).

(** ** Routes *)

(** POST /session: [create_session()].  [uuid4] is the value [str(uuid.uuid4())]
    takes if it is reached and [now] the value of [CURRENT_TIMESTAMP]. *)
Definition create_session (data : session_request) (uuid4 : str) (now : N)
    (w : world) : response * world :=
  let user_id := userId data in
  let preferences := default (lit "{}") (userPreferences data) in
  let existing_session :=
    match user_id with
    | Some ((_ :: _) as u) => select_session_of_user u w
    | _ => None
    end in
  match existing_session with
  | Some r => ((SessionCreated (Sess.session_id r) (Sess.session_id r), 200), w)
  | None =>
      let session_id := uuid4 in
      match insert_session session_id user_id preferences now w with
      | (inr _, w') => ((SessionCreated session_id session_id, 200), w')
      | (inl e, w') => ((Failure (str_of_exn e), 500), w')
      end
  end.

(** GET /documents: [get_documents()] *)
Definition get_documents (authorization : option str) (w : world)
    : response * world :=
  let auth_header := default [] authorization in
  match session_of auth_header with
  | None | Some [] => ((Failure (lit "No session token provided"), 401), w)
  | Some session_id =>
      let documents := map summary (select_documents session_id w) in
      ((Documents documents (length documents) (total_size documents), 200), w)
  end.

(** DELETE /documents/<document_id>: [delete_document(document_id)] *)
Definition delete_document (document_id : str) (authorization : option str)
    (w : world) : response * world :=
  let auth_header := default [] authorization in
  match session_of auth_header with
  | None | Some [] => ((Failure (lit "No session token provided"), 401), w)
  | Some session_id =>
      match select_owned document_id session_id w with
      | None => ((Failure (lit "Document not found or access denied"), 404), w)
      | Some _ =>
          ((Deleted (lit "Document deleted successfully"), 200),
           delete_row document_id w)
      end
  end.

Section upload.
Context `{Runtime}.

(** [allowed_file(filename)] *)
Definition allowed_file (filename : str) : bool :=
  contains 46 filename
  && match rsplit1 46 filename !! 1%nat with
     | Some ext => bool_decide (lower ext ∈ ALLOWED_EXTENSIONS)
     | None => false
     end.

(** [os.path.join(app.config['UPLOAD_FOLDER'], f"{uuid.uuid4()}_{filename}")] *)
Definition temp_path (uuid4 filename : str) : str :=
  UPLOAD_FOLDER ++ lit "/" ++ uuid4 ++ lit "_" ++ filename.

(** The checks of [upload_file] that come before the file is saved: the
    session, the file part, its name and its type. *)
Definition upload_checks (req : upload_request) (w : world)
    : response + (str * FileStorage * bool) :=
  let auth_header := default [] (Authorization req) in
  match session_of auth_header with
  | None | Some [] => inl (Failure (lit "No session token provided"), 401)
  | Some session_id =>
      match select_session session_id w with
      | None => inl (Failure (lit "Invalid session"), 401)
      | Some _ =>
          match file req with
          | None => inl (Failure (lit "No file provided"), 400)
          | Some file =>
              match filename file with
              | [] => inl (Failure (lit "No file selected"), 400)
              | _ =>
                  let is_public :=
                    bool_decide
                      (lower (default (lit "false") (isPublic req)) = lit "true") in
                  if allowed_file (filename file)
                  then inr (session_id, file, is_public)
                  else
                    inl (Failure
                           (lit "File type not allowed. Allowed types: "
                            ++ join (lit ", ") ALLOWED_EXTENSIONS), 400)
              end
          end
      end
  end.

(** "Process file based on type": the text of the file, or [None] for a
    type that is neither branch's. *)
Definition extract (file_type file_path : str) : M (option str) :=
  if bool_decide (file_type = lit "pdf")
  then Some <$> process_pdf file_path
  else if bool_decide (file_type ∈ [lit "txt"; lit "md"])
  then Some <$> process_text file_path
  else mret None.

(** [content[:500] + '...' if len(content) > 500 else content] *)
Definition preview (content : str) : str :=
  if (500 <? length content)%nat then take 500 content ++ lit "..." else content.

(** [upload_file] from "Save file temporarily" to its last [return], inside
    the [try].  [tmp_uuid] and [doc_uuid] are the two values of
    [uuid.uuid4()]. *)
Definition upload_steps (session_id : str) (file : FileStorage) (is_public : bool)
    (tmp_uuid doc_uuid : str) (now : N) : M response :=
  let filename := secure_filename (filename file) in
  let file_path := temp_path tmp_uuid filename in
  save (stream file) file_path;;
  file_size ← getsize file_path;
  file_type ← lift
    match rsplit1 46 filename !! 1%nat with
    | Some ext => inr (lower ext)
    | None => inl (Exception (lit "list index out of range"))
    end;
  content ← extract file_type file_path;
  match content with
  | None =>
      remove file_path;;
      mret (Failure (lit "Unsupported file type: " ++ file_type), 400)
  | Some content =>
      let content := clean_content content in
      if (length content <? 100)%nat
      then
        remove file_path;;
        mret (Failure (lit "Document content is too short to be useful"), 400)
      else
        let title := generate_title filename content in
        doc_id ← save_document title content filename file_type file_size
                   session_id is_public doc_uuid now;
        remove file_path;;
        mret (Upload {| Uploaded.id := doc_id; Uploaded.title := title;
                        Uploaded.content := preview content;
                        Uploaded.fileName := filename;
                        Uploaded.fileType := file_type;
                        Uploaded.fileSize := file_size |}, 200)
  end.

(** POST /upload: [upload_file()].  An exception of the steps above is
    caught: the file is removed if it exists, and the answer is a 500. *)
Definition upload_file (req : upload_request) (tmp_uuid doc_uuid : str) (now : N)
    (w : world) : response * world :=
  match upload_checks req w with
  | inl resp => (resp, w)
  | inr (session_id, file, is_public) =>
      let file_path := temp_path tmp_uuid (secure_filename (filename file)) in
      match upload_steps session_id file is_public tmp_uuid doc_uuid now w with
      | (inr resp, w') => (resp, w')
      | (inl e, w') =>
          let w'' :=
            if exists_ file_path w' then snd (remove file_path w') else w' in
          ((Failure (str_of_exn e), 500), w'')
      end
  end.
End upload.

(** Plain ASCII lower-casing, and file names that [secure_filename] leaves as
    they are: the setting of the examples below. *)
Definition ascii_lower (s : str) : str :=
  map (λ c, if (65 <=? c) && (c <=? 90) then c + 32 else c) s.

Definition ascii_runtime : Runtime :=
  {| lower := ascii_lower; secure_filename := λ s, s |}.

(** ** Notions used in the statements *)

Definition nonspace (c : char) : Prop := is_space c = false.

(** A word: a non-empty run without whitespace. *)
Definition word (w : str) : Prop := w ≠ [] ∧ Forall nonspace w.

(** A string made of words separated by one space each. *)
Definition spaced (s : str) : Prop := ∃ ws, Forall word ws ∧ s = join [SP] ws.

(** No two neighbours are both spaces. *)
Fixpoint single_spaced (s : str) : Prop :=
  match s with
  | c :: ((d :: _) as s') => ¬ (c = SP ∧ d = SP) ∧ single_spaced s'
  | _ => True
  end.

(** The title in the words of the specification: ['_'] and ['-'] become
    spaces. *)
Definition blank (c : char) : char :=
  if (c =? 95) || (c =? 45) then SP else c.

Definition title_of_stem (stem : str) : str := take 100 (map blank stem).


(** The row that an accepted upload inserts. *)
Definition uploaded_row (sid name file_type raw : str) (size : N) (pub : bool)
    (doc : str) (now : N) : Doc.row :=
  {| Doc.id := doc; Doc.title := generate_title name (clean_content raw);
     Doc.content := clean_content raw; Doc.file_name := name;
     Doc.file_type := file_type; Doc.file_size := size;
     Doc.uploaded_by := Some sid; Doc.is_public := pub; Doc.created_at := now;
     Doc.metadata := None |}.

(** The document of the answer to an accepted upload. *)
Definition uploaded_json (name file_type raw : str) (size : N) (doc : str)
    : Uploaded.t :=
  {| Uploaded.id := doc; Uploaded.title := generate_title name (clean_content raw);
     Uploaded.content := preview (clean_content raw); Uploaded.fileName := name;
     Uploaded.fileType := file_type; Uploaded.fileSize := size |}.

(** ** Example data *)

Definition empty_world : world :=
  {| sessions := []; documents := []; files := ∅ |}.

Definition session_s1 : Sess.row :=
  {| Sess.session_id := lit "s1"; Sess.user_id := Some (lit "alice");
     Sess.created_at := 1; Sess.is_admin := false; Sess.preferences := lit "{}" |}.

Definition session_s2 : Sess.row :=
  {| Sess.session_id := lit "s2"; Sess.user_id := Some (lit "bob");
     Sess.created_at := 2; Sess.is_admin := false; Sess.preferences := lit "{}" |}.

Definition doc_private_s1 : Doc.row :=
  {| Doc.id := lit "d1"; Doc.title := lit "notes"; Doc.content := lit "...";
     Doc.file_name := lit "notes.txt"; Doc.file_type := lit "txt";
     Doc.file_size := 1200; Doc.uploaded_by := Some (lit "s1");
     Doc.is_public := false; Doc.created_at := 10; Doc.metadata := None |}.

Definition doc_public_s2 : Doc.row :=
  {| Doc.id := lit "d2"; Doc.title := lit "guide"; Doc.content := lit "...";
     Doc.file_name := lit "guide.pdf"; Doc.file_type := lit "pdf";
     Doc.file_size := 3400; Doc.uploaded_by := Some (lit "s2");
     Doc.is_public := true; Doc.created_at := 20; Doc.metadata := None |}.

Definition doc_private_s2 : Doc.row :=
  {| Doc.id := lit "d3"; Doc.title := lit "draft"; Doc.content := lit "...";
     Doc.file_name := lit "draft.md"; Doc.file_type := lit "md";
     Doc.file_size := 500; Doc.uploaded_by := Some (lit "s2");
     Doc.is_public := false; Doc.created_at := 30; Doc.metadata := None |}.

Definition example_world : world :=
  {| sessions := [session_s1; session_s2];
     documents := [doc_private_s1; doc_public_s2; doc_private_s2];
     files := ∅ |}.

Definition ghost_upload : upload_request :=
  {| Authorization := Some (lit "Bearer ghost");
     file := Some {| filename := lit "notes.txt";
                     stream := {| st_size := 5;
                                  as_pdf := inl (PdfReadError (lit "EOF marker not found"));
                                  as_text := inr (lit "hello") |} |};
     isPublic := None |}.

Definition encrypted_pdf : file_data :=
  {| st_size := 2048;
     as_pdf := inr {| is_encrypted := true;
                      pages := [PageText (lit "Nutrient film technique")] |};
     as_text := inl (Exception (lit "'utf-8' codec can't decode byte 0xe2")) |}.

Definition pdf_with_bad_page : file_data :=
  {| st_size := 4096;
     as_pdf := inr {| is_encrypted := false;
                      pages := [PageText (lit "page one");
                                PageRaises (Exception (lit "bad stream"));
                                PageText (lit "page three")] |};
     as_text := inl (Exception (lit "'utf-8' codec can't decode byte 0xe2")) |}.

Definition on_disk (path : str) (f : file_data) : world :=
  set_files empty_world {[ path := f ]}.

(** An upload of a text file by session [s1]. *)
Definition text_upload (name text : str) : upload_request :=
  {| Authorization := Some (lit "Bearer s1");
     file := Some {| filename := name;
                     stream := {| st_size := N.of_nat (length text);
                                  as_pdf := inl (PdfReadError (lit "EOF marker not found"));
                                  as_text := inr text |} |};
     isPublic := Some (lit "true") |}.

(** ** Further notions used in the statements *)

(** A non-empty run of whitespace. *)
Definition space_run (ws : str) : Prop :=
  ws ≠ [] ∧ Forall (λ c, is_space c = true) ws.

Definition two_page_pdf : file_data :=
  {| st_size := 4096;
     as_pdf := inr {| is_encrypted := false;
                      pages := [PageText (lit "page one"); PageText (lit "page two")] |};
     as_text := inl (Exception (lit "'utf-8' codec can't decode byte 0xe2")) |}.

(** What holds of a stored document: its content is cleaned text of at least
    100 characters, its title has at most 100 characters, and its owner is a
    session of the store. *)
Definition stored_ok (w : world) (r : Doc.row) : Prop :=
  (100 ≤ length (Doc.content r))%nat
  ∧ clean_content (Doc.content r) = Doc.content r
  ∧ (length (Doc.title r) ≤ 100)%nat
  ∧ ∃ s, s ∈ sessions w ∧ Doc.uploaded_by r = Some (Sess.session_id s).

(** The documents table is well formed: every row is, and [id] is a key. *)
Definition documents_ok (w : world) : Prop :=
  Forall (stored_ok w) (documents w) ∧ NoDup (Doc.id <$> documents w).

(** The non-empty user ids of the sessions, in row order. *)
Definition named_users (ss : list Sess.row) : list str :=
  omap (λ r, match Sess.user_id r with
             | Some ((_ :: _) as u) => Some u
             | _ => None
             end) ss.

(** The sessions table is well formed: [session_id] is a key, and no two
    sessions share a non-empty user id. *)
Definition sessions_ok (w : world) : Prop :=
  NoDup (Sess.session_id <$> sessions w) ∧ NoDup (named_users (sessions w)).

Definition sessions_only_world : world :=
  {| sessions := [session_s1; session_s2]; documents := []; files := ∅ |}.

(** Taking leading ['.'] and ['_'] off a name, as [secure_filename] does
    among its other steps. *)
Fixpoint lstrip_dots (s : str) : str :=
  match s with
  | [] => []
  | c :: s' => if (c =? 46) || (c =? 95) then lstrip_dots s' else s
  end.

Definition dot_stripping_runtime : Runtime :=
  {| lower := ascii_lower; secure_filename := lstrip_dots |}.

(** ** The remaining routes of [flask_app_clean.py] *)

(** [s.endswith(suffix)] *)
Definition endswith (suffix s : str) : bool :=
  startswith (reverse suffix) (reverse s).

(** The JSON body of GET /test-pdf. *)
Inductive test_pdf_body : Type :=
| TestFailure (error : str)
| TestPdf (fileName : str) (contentLength : nat) (contentPreview : str).

(** GET /test-pdf: [test_pdf()].  [listing] is the outcome of
    [os.listdir(UPLOAD_FOLDER)], whose order is the operating system's. *)
Definition test_pdf (listing : exn + list str) (w : world) : test_pdf_body * N :=
  match listing with
  | inl e => (TestFailure (str_of_exn e), 500)
  | inr names =>
      let pdf_files := List.filter (endswith (lit ".pdf")) names in
      match pdf_files with
      | [] => (TestFailure (lit "No PDF files found in uploads directory"), 404)
      | test_file :: _ =>
          let file_path := UPLOAD_FOLDER ++ lit "/" ++ test_file in
          match fst (process_pdf file_path w) with
          | inr content => (TestPdf test_file (length content) (preview content), 200)
          | inl e => (TestFailure (str_of_exn e), 500)
          end
      end
  end.

(** What the Plant.id API answers, as far as [identify_plant] reads it: the
    ['probability'] of each entry of ['suggestions'], when it has one.  A
    missing or empty ['suggestions'] is the empty list; [inl] is an exception
    of [requests.post] or [response.json()].  [P] is the type of the
    probabilities. *)
Definition plant_reply (P : Type) : Type := exn + list (option P).

(** ['confidence']: the integer [0], or [probability * 100]. *)
Inductive confidence (P : Type) : Type :=
| Zero
| Times100 (probability : P).
Arguments Zero {P}.
Arguments Times100 {P} probability.

(** The JSON body of POST /identify-plant; [plant_details] is a dictionary,
    here the list of its items. *)
Inductive plant_body (P : Type) : Type :=
| PlantFailure (error : str)
| Plant (is_plant : bool) (plant_details : list (str * str)) (c : confidence P).
Arguments PlantFailure {P} error.
Arguments Plant {P} is_plant plant_details c.

Record plant_request : Type := {
  plant_Authorization : option str;
  plant_file : option FileStorage
}.

Section plant.
Context `{Runtime} {P : Type}.

(** POST /identify-plant: [identify_plant()].  [api_key] is
    [os.environ.get('PLANTID_API_KEY')] and [reply] what the call to the
    API gives if it is made. *)
Definition identify_plant (req : plant_request) (api_key : option str)
    (reply : plant_reply P) : plant_body P * N :=
  let auth_header := default [] (plant_Authorization req) in
  match session_of auth_header with
  | None | Some [] => (PlantFailure (lit "No session token provided"), 401)
  | Some (_ :: _) =>
      match plant_file req with
      | None => (PlantFailure (lit "No file provided"), 400)
      | Some file =>
          match filename file with
          | [] => (PlantFailure (lit "No file selected"), 400)
          | _ =>
              let allowed_image_types := [lit "jpg"; lit "jpeg"; lit "png"] in
              let file_ext :=
                if contains 46 (filename file)
                then lower (default [] (rsplit1 46 (filename file) !! 1%nat))
                else [] in
              if negb (bool_decide (file_ext ∈ allowed_image_types))
              then (PlantFailure (lit "Not a valid image format"), 400)
              else
                match api_key with
                | None | Some [] =>
                    (PlantFailure (lit "Plant.id API key not configured"), 500)
                | Some _ =>
                    match reply with
                    | inl e => (PlantFailure (str_of_exn e), 500)
                    | inr suggestions =>
                        let is_plant := false in
                        let plant_details := [] in
                        let confidence :=
                          match suggestions with
                          | top_suggestion :: _ =>
                              match top_suggestion with
                              | Some probability => Times100 probability
                              | None => Zero
                              end
                          | [] => Zero
                          end in
                        (Plant is_plant plant_details confidence, 200)
                    end
                end
          end
      end
  end.
End plant.

(** One page of the dashboard's text: the page's text, or a marker. *)
Definition page_line (pg : page) : str :=
  match pg with
  | PageText [] => lit "[Empty page]" ++ [LF]
  | PageText t => t ++ [LF]
  | PageRaises e =>
      lit "[Error extracting page: " ++ str_of_exn e ++ lit "]" ++ [LF]
  end.

(** * Properties *)

(** ** Whitespace splitting and joining *)

Lemma split_from_words cur s :
  Forall nonspace cur → Forall word (split_from cur s).
Proof.
  revert cur. induction s as [|c s IH]; intros cur Hcur; simpl.
  - destruct cur; constructor; [|constructor]. split; [done|done].
  - destruct (is_space c) eqn:Hc.
    + destruct cur.
      * by apply IH.
      * constructor; [by split|]. by apply IH.
    + apply IH. apply Forall_app. split; [done|]. by constructor.
Qed.

Lemma split_words s : Forall word (split s).
Proof. apply split_from_words. constructor. Qed.

Lemma split_from_run cur w rest :
  Forall nonspace w → split_from cur (w ++ rest) = split_from (cur ++ w) rest.
Proof.
  revert cur. induction w as [|c w IH]; intros cur Hw; simpl.
  - by rewrite app_nil_r.
  - inversion Hw as [|? ? Hc Hw']; subst. unfold nonspace in Hc. rewrite Hc.
    rewrite IH by done. by rewrite <- app_assoc.
Qed.

Lemma join_cons2 sep w w' ws :
  join sep (w :: w' :: ws) = w ++ sep ++ join sep (w' :: ws).
Proof. reflexivity. Qed.

Lemma split_from_join ws cur :
  Forall word ws → ws ≠ [] →
  split_from cur (join [SP] ws) =
    match ws with w :: ws' => (cur ++ w) :: ws' | [] => [] end.
Proof.
  revert cur. induction ws as [|w ws IH]; intros cur Hws Hne; [done|].
  inversion Hws as [|? ? [Hw1 Hw2] Hws']; subst.
  destruct ws as [|w' ws].
  - simpl. rewrite <- (app_nil_r w) at 1. rewrite split_from_run by done.
    simpl. destruct (cur ++ w) eqn:E; [|done].
    apply app_eq_nil in E as [_ ?]. done.
  - rewrite join_cons2, split_from_run by done.
    cbn [app split_from]. change (is_space SP) with true. cbn iota.
    rewrite IH by done. simpl.
    destruct (cur ++ w) eqn:E; [|done].
    apply app_eq_nil in E as [_ ?]. done.
Qed.

Lemma split_join ws : Forall word ws → split (join [SP] ws) = ws.
Proof.
  intros Hws. destruct ws as [|w ws]; [done|].
  unfold split. by rewrite split_from_join.
Qed.

Lemma spaced_chars s c : spaced s → c ∈ s → nonspace c ∨ c = SP.
Proof.
  intros (ws & Hws & ->). induction Hws as [|w ws [_ Hw] Hws IH]; [by inversion 1|].
  destruct ws as [|w' ws].
  - simpl. intros Hc. left. by eapply Forall_forall in Hw.
  - rewrite join_cons2. rewrite !elem_of_app. intros [Hc|[Hc|Hc]].
    + left. by eapply Forall_forall in Hw.
    + right. by apply list_elem_of_singleton in Hc.
    + by apply IH.
Qed.

Lemma spaced_head s c : spaced s → head s = Some c → nonspace c.
Proof.
  intros (ws & Hws & ->). destruct Hws as [|w ws [Hne Hw] Hws]; [done|].
  destruct w as [|x w]; [done|]. inversion Hw; subst.
  destruct ws; simpl; congruence.
Qed.

Lemma spaced_last s c : spaced s → last s = Some c → nonspace c.
Proof.
  intros (ws & Hws & ->). induction Hws as [|w ws [Hne Hw] Hws IH]; [done|].
  destruct ws as [|w' ws].
  - simpl. intros Hl. eapply Forall_forall in Hw; [done|].
    by apply last_Some_elem_of.
  - rewrite join_cons2, !last_app. intros Hl.
    destruct (last (join [SP] (w' :: ws))) eqn:E; [apply IH; congruence|].
    apply last_None in E. inversion Hws as [|? ? [Hne' _] _]; subst.
    destruct w'; [done|]. destruct ws; discriminate.
Qed.

Lemma lstrip_head s :
  (∀ c, head s = Some c → nonspace c) → lstrip s = s.
Proof.
  destruct s as [|c s]; [done|]. intros Hh. simpl.
  by rewrite (Hh c eq_refl).
Qed.

Lemma spaced_strip s : spaced s → strip s = s.
Proof.
  intros Hs. unfold strip, rstrip.
  rewrite (lstrip_head s) by (intros c; by apply spaced_head).
  rewrite (lstrip_head (reverse s)), reverse_involutive; [done|].
  intros c. rewrite head_reverse. by apply spaced_last.
Qed.

Lemma single_spaced_run w rest :
  Forall nonspace w → single_spaced rest → single_spaced (w ++ rest).
Proof.
  intros Hw Hrest. induction Hw as [|c w Hc Hw IH]; [done|].
  simpl. destruct (w ++ rest) as [|d t] eqn:E; [done|].
  split; [|done]. intros [-> _]. by vm_compute in Hc.
Qed.

Lemma spaced_single_spaced s : spaced s → single_spaced s.
Proof.
  intros (ws & Hws & ->). induction Hws as [|w ws [Hne Hw] Hws IH]; [done|].
  destruct ws as [|w' ws].
  - simpl. rewrite <- (app_nil_r w). by apply single_spaced_run.
  - rewrite join_cons2. apply single_spaced_run; [done|].
    pose proof (spaced_head (join [SP] (w' :: ws))) as Hhd.
    cbn [app]. destruct (join [SP] (w' :: ws)) as [|y t] eqn:E; [done|].
    split; [|done]. intros [_ ->].
    assert (Hy : nonspace SP); [|by vm_compute in Hy].
    apply Hhd; [|done]. exists (w' :: ws). by rewrite E.
Qed.

Lemma single_spaced_no_pair s a b :
  single_spaced s → s ≠ a ++ [SP; SP] ++ b.
Proof.
  revert s. induction a as [|x a IH]; intros s Hs ->.
  - simpl in Hs. destruct Hs as [Hs _]. by apply Hs.
  - simpl in Hs. destruct (a ++ SP :: SP :: b) eqn:E.
    + by destruct a.
    + destruct Hs as [_ Hs]. eapply IH; [exact Hs|]. by rewrite <- E.
Qed.

(** [replace] leaves a string alone in which the first character of [old]
    does not occur. *)
Lemma replace_absent x old new s :
  x ∉ s → replace (x :: old) new s = s.
Proof.
  unfold replace. induction s as [|c s IH]; [done|].
  intros Hx. apply not_elem_of_cons in Hx as [Hne Hx].
  cbn [replace_from startswith].
  destruct (N.eqb_spec x c) as [->|_]; [done|].
  simpl. by rewrite IH.
Qed.

Lemma spaced_join_split s : spaced (join [SP] (split s)).
Proof. exists (split s). split; [apply split_words|done]. Qed.

Lemma spaced_no_line_break s c :
  spaced s → is_space c = true → c ≠ SP → c ∉ s.
Proof.
  intros Hs Hc Hne Hin. destruct (spaced_chars s c Hs Hin) as [Hn|]; [|done].
  unfold nonspace in Hn. congruence.
Qed.

Lemma clean_content_spaced s : spaced (clean_content s).
Proof.
  unfold clean_content. rewrite spaced_strip by apply spaced_join_split.
  apply spaced_join_split.
Qed.

Lemma clean_content_of_spaced s : spaced s → clean_content s = s.
Proof.
  intros Hs. unfold clean_content.
  rewrite (replace_absent CR) by (by apply spaced_no_line_break).
  rewrite (replace_absent LF) by (by apply spaced_no_line_break).
  destruct Hs as (ws & Hws & ->).
  rewrite split_join by done.
  apply spaced_strip. by exists ws.
Qed.

(** C10: for every string, [clean_content] returns a string without newline,
    carriage return or tab, without two consecutive spaces, without leading
    or trailing whitespace, and applying it twice is applying it once. *)
Theorem clean_content_normal_form (s : str) :
  ((LF ∉ clean_content s) ∧ (CR ∉ clean_content s) ∧ (TAB ∉ clean_content s))
  ∧ (∀ a b, clean_content s ≠ a ++ [SP; SP] ++ b)
  ∧ (∀ c, head (clean_content s) = Some c → is_space c = false)
  ∧ (∀ c, last (clean_content s) = Some c → is_space c = false)
  ∧ clean_content (clean_content s) = clean_content s.
Proof.
  pose proof (clean_content_spaced s) as Hs.
  repeat split.
  - by apply spaced_no_line_break.
  - by apply spaced_no_line_break.
  - by apply spaced_no_line_break.
  - intros a b. by apply single_spaced_no_pair, spaced_single_spaced.
  - intros c. by apply spaced_head.
  - intros c. by apply spaced_last.
  - by apply clean_content_of_spaced.
Qed.

(** ** Titles *)

Lemma replace_char x y s :
  replace [x] [y] s = map (λ c, if c =? x then y else c) s.
Proof.
  unfold replace. induction s as [|c s IH]; [done|].
  cbn [replace_from startswith length pred map].
  rewrite IH. rewrite (N.eqb_sym c x).
  destruct (x =? c); simpl; [|done]. by destruct s.
Qed.

Lemma rcut_absent sep s : sep ∉ s → rcut sep s = None.
Proof.
  induction s as [|c s IH]; [done|].
  intros Hs. apply not_elem_of_cons in Hs as [Hne Hs]. simpl.
  rewrite IH by done. destruct (N.eqb_spec c sep); congruence.
Qed.

Lemma rcut_last sep stem ext :
  sep ∉ ext → rcut sep (stem ++ sep :: ext) = Some (stem, ext).
Proof.
  intros Hext. induction stem as [|c stem IH]; simpl.
  - by rewrite rcut_absent, N.eqb_refl.
  - by rewrite IH.
Qed.

Lemma rcut_Some sep s a b :
  rcut sep s = Some (a, b) → s = a ++ sep :: b ∧ (sep ∉ b).
Proof.
  revert a. induction s as [|c s IH]; [done|]. intros a. simpl.
  destruct (rcut sep s) as [[a' b']|] eqn:E.
  - intros [= <- <-]. destruct (IH a' eq_refl) as [-> Hb]. by split.
  - destruct (N.eqb_spec c sep) as [->|]; [|done].
    intros [= <- <-]. split; [done|].
    clear IH. intros Hin. induction s as [|d s IHs]; [by inversion Hin|].
    simpl in E. destruct (rcut sep s) as [[a' b']|]; [done|].
    destruct (N.eqb_spec d sep) as [->|Hd]; [done|].
    apply elem_of_cons in Hin as [->|Hin]; [done|]. by apply IHs.
Qed.

Lemma rcut_None sep s : rcut sep s = None → contains sep s = false.
Proof.
  induction s as [|c s IH]; [done|]. simpl.
  destruct (rcut sep s) as [[a b]|]; [done|].
  destruct (N.eqb_spec c sep) as [->|Hne]; [done|]. intros _.
  rewrite IH by done. destruct (N.eqb_spec sep c); [congruence|done].
Qed.

(** A name with a ['.'] splits at its last ['.']. *)
Lemma rcut_contains sep s :
  contains sep s = true →
  ∃ stem ext, s = stem ++ sep :: ext ∧ (sep ∉ ext).
Proof.
  intros Hc. destruct (rcut sep s) as [[a b]|] eqn:E.
  - exists a, b. by apply rcut_Some.
  - apply rcut_None in E. congruence.
Qed.

Lemma generate_title_stem stem ext content :
  46 ∉ ext → generate_title (stem ++ 46 :: ext) content = title_of_stem stem.
Proof.
  intros Hext. unfold generate_title, rsplit1, title_of_stem.
  rewrite rcut_last by done. simpl.
  change (lit "_") with [95]. change (lit "-") with [45]. change (lit " ") with [SP].
  rewrite !replace_char, map_map. f_equal. apply map_ext. intros c.
  unfold blank. destruct (N.eqb_spec c 95) as [->|]; [done|]. done.
Qed.

Section title.
Context `{Runtime}.

(** C9: the title of an accepted file name is the name up to its last
    ['.'], with ['_'] and ['-'] turned into spaces, cut at 100 characters;
    it does not depend on the content; the name
    [hydroponic_nutrient-guide.pdf] gives [hydroponic nutrient guide]. *)
Theorem generate_title_of_filename (name content content' : str) :
  allowed_file name = true →
  (∃ stem ext, name = stem ++ lit "." ++ ext ∧ (46 ∉ ext)
               ∧ generate_title name content = title_of_stem stem)
  ∧ (length (generate_title name content) ≤ 100)%nat
  ∧ generate_title name content' = generate_title name content
  ∧ generate_title (lit "hydroponic_nutrient-guide.pdf") content
    = lit "hydroponic nutrient guide".
Proof.
  intros Hok. unfold allowed_file in Hok. apply andb_true_iff in Hok as [Hdot _].
  destruct (rcut_contains _ _ Hdot) as (stem & ext & -> & Hext).
  split; [|split; [|split]].
  - exists stem, ext. split; [done|]. split; [done|].
    by apply generate_title_stem.
  - unfold generate_title. rewrite length_take. lia.
  - reflexivity.
  - by vm_compute.
Qed.
End title.

Lemma generate_title_of_filename_witness :
  @allowed_file ascii_runtime (lit "hydroponic_nutrient-guide.pdf") = true
  ∧ (length (generate_title (lit "hydroponic_nutrient-guide.pdf") (lit "text")) ≤ 100)%nat.
Proof.
  split; [by vm_compute|].
  apply (@generate_title_of_filename ascii_runtime
           (lit "hydroponic_nutrient-guide.pdf") (lit "text") []).
  by vm_compute.
Defined.

(** ** Listing *)

#[global] Instance newer_first_total : Total newer_first.
Proof. intros a b. unfold newer_first. lia. Qed.

#[global] Instance newer_first_trans : Transitive newer_first.
Proof. intros a b c. unfold newer_first. lia. Qed.







(** ** Deletion *)

Lemma select_owned_Some document_id sid w r :
  select_owned document_id sid w = Some r →
  r ∈ documents w ∧ Doc.id r = document_id ∧ Doc.uploaded_by r = Some sid.
Proof.
  unfold select_owned. intros Hf. apply find_some in Hf as [Hin Hb].
  apply bool_decide_eq_true in Hb. split; [by apply list_elem_of_In|done].
Qed.

Lemma select_owned_None document_id sid w r :
  select_owned document_id sid w = None → r ∈ documents w →
  ¬ (Doc.id r = document_id ∧ Doc.uploaded_by r = Some sid).
Proof.
  unfold select_owned. intros Hf Hin. apply list_elem_of_In in Hin.
  apply (find_none _ _ Hf) in Hin. by apply bool_decide_eq_false in Hin.
Qed.

(** C2: with a session id in the bearer token, the deletion succeeds exactly
    when a row with that id exists whose [uploaded_by] is the session; then
    the rows of that id are gone; otherwise the answer is the one 404 and the
    world is as before. *)
Theorem delete_document_owner_only (document_id : str) (authorization : option str)
    (sid : str) (w : world) :
  session_of (default [] authorization) = Some sid → sid ≠ [] →
  let owned :=
    ∃ r, r ∈ documents w ∧ Doc.id r = document_id ∧ Doc.uploaded_by r = Some sid in
  (owned ↔ snd (fst (delete_document document_id authorization w)) = 200)
  ∧ (owned →
     delete_document document_id authorization w
       = ((Deleted (lit "Document deleted successfully"), 200),
          set_documents w (filter (λ r, Doc.id r ≠ document_id) (documents w))))
  ∧ (¬ owned →
     delete_document document_id authorization w
       = ((Failure (lit "Document not found or access denied"), 404), w)).
Proof.
  intros Hsid Hne owned. unfold delete_document. rewrite Hsid.
  destruct sid as [|c sid]; [done|].
  destruct (select_owned document_id (c :: sid) w) as [r|] eqn:Hsel.
  - assert (Hown : owned) by (exists r; by apply select_owned_Some).
    split; [|split]; [done|done|]. intros Hno. by destruct Hno.
  - assert (Hno : ¬ owned).
    { intros (r & Hin & Hr). by eapply select_owned_None. }
    split; [|split]; [|done|done].
    split; [done|]. simpl. discriminate.
Qed.

Lemma delete_document_owner_only_witness :
  session_of (default [] (Some (lit "Bearer s2"))) = Some (lit "s2")
  ∧ delete_document (lit "d1") (Some (lit "Bearer s2")) example_world
    = ((Failure (lit "Document not found or access denied"), 404), example_world).
Proof.
  split; [by vm_compute|].
  apply (delete_document_owner_only (lit "d1") (Some (lit "Bearer s2")) (lit "s2")
           example_world); [by vm_compute|done|].
  intros (r & Hin & Hid & Hown). vm_compute in Hin.
  repeat (apply elem_of_cons in Hin as [->|Hin]; [by vm_compute in Hid, Hown|]).
  by inversion Hin.
Defined.

(** ** Sessions *)

Lemma find_snoc {A} (f : A → bool) l x :
  find f l = None → find f (l ++ [x]) = if f x then Some x else None.
Proof.
  induction l as [|y l IH]; simpl; [done|].
  destruct (f y); [done|]. exact IH.
Qed.

Lemma select_session_of_user_Some u w r :
  select_session_of_user u w = Some r → r ∈ sessions w ∧ Sess.user_id r = Some u.
Proof.
  unfold select_session_of_user. intros Hf. apply find_some in Hf as [Hin Hb].
  apply bool_decide_eq_true in Hb. split; [by apply list_elem_of_In|done].
Qed.

Lemma select_session_of_user_None u w r :
  select_session_of_user u w = None → r ∈ sessions w → Sess.user_id r ≠ Some u.
Proof.
  unfold select_session_of_user. intros Hf Hin. apply list_elem_of_In in Hin.
  apply (find_none _ _ Hf) in Hin. by apply bool_decide_eq_false in Hin.
Qed.

(** The empty [userId] is not looked up: two requests with it make two
    sessions. *)
Lemma create_session_empty_user_id_twice :
  let data := {| userId := Some []; userPreferences := None |} in
  let first := create_session data (lit "s1") 1 empty_world in
  let second := create_session data (lit "s2") 2 (snd first) in
  fst first = (SessionCreated (lit "s1") (lit "s1"), 200)
  ∧ (∃ r, r ∈ sessions (snd first) ∧ Sess.user_id r = userId data)
  ∧ fst second = (SessionCreated (lit "s2") (lit "s2"), 200)
  ∧ length (sessions (snd second)) = 2%nat.
Proof.
  cbv zeta. split; [by vm_compute|]. split; [|split; by vm_compute].
  exists {| Sess.session_id := lit "s1"; Sess.user_id := Some [];
            Sess.created_at := 1; Sess.is_admin := false;
            Sess.preferences := lit "{}" |}.
  split; [|reflexivity]. vm_compute. apply list_elem_of_here.
Qed.

(** C4, for a non-empty [userId]: if a session of that user exists, its id is
    returned and nothing is written; a request that follows a successful one
    for the same user returns the same id and writes nothing, whatever
    preferences it carries. *)
Theorem create_session_idempotent (data data' : session_request) (u uuid4 uuid4' : str)
    (now now' : N) (w : world) :
  userId data = Some u → userId data' = Some u → u ≠ [] →
  ((∃ r, r ∈ sessions w ∧ Sess.user_id r = Some u) →
   ∃ r, r ∈ sessions w ∧ Sess.user_id r = Some u
        ∧ create_session data uuid4 now w
          = ((SessionCreated (Sess.session_id r) (Sess.session_id r), 200), w))
  ∧ (∀ sid tok w1,
       create_session data uuid4 now w = ((SessionCreated sid tok, 200), w1) →
       create_session data' uuid4' now' w1 = ((SessionCreated sid tok, 200), w1)).
Proof.
  intros Hu Hu' Hne. destruct u as [|c u]; [done|].
  unfold create_session. rewrite Hu, Hu'. split.
  - intros (r & Hin & Hr).
    destruct (select_session_of_user (c :: u) w) as [r0|] eqn:Hsel.
    + exists r0. by destruct (select_session_of_user_Some _ _ _ Hsel).
    + by destruct (select_session_of_user_None _ _ _ Hsel Hin).
  - intros sid tok w1.
    destruct (select_session_of_user (c :: u) w) as [r0|] eqn:Hsel.
    + intros [= <- <- <-]. by rewrite Hsel.
    + unfold insert_session.
      destruct (select_session uuid4 w); [done|].
      intros [= <- <- <-].
      unfold select_session_of_user in *. cbn [sessions set_sessions].
      rewrite find_snoc by done. cbn [Sess.user_id Sess.session_id].
      by rewrite bool_decide_eq_true_2.
Qed.

Lemma create_session_idempotent_witness :
  let data := {| userId := Some (lit "alice"); userPreferences := None |} in
  let data' := {| userId := Some (lit "alice"); userPreferences := Some (lit "{}") |} in
  let first := create_session data (lit "s1") 1 empty_world in
  create_session data' (lit "s2") 2 (snd first)
  = ((SessionCreated (lit "s1") (lit "s1"), 200), snd first).
Proof.
  cbv zeta.
  apply (create_session_idempotent
           {| userId := Some (lit "alice"); userPreferences := None |}
           {| userId := Some (lit "alice"); userPreferences := Some (lit "{}") |}
           (lit "alice") (lit "s1") (lit "s2") 1 2 empty_world);
    [reflexivity | reflexivity | by vm_compute | by vm_compute].
Defined.




(** ** The session gate *)

(** The listing never reads the sessions table. *)
Lemma get_documents_ignores_sessions authorization w ss :
  fst (get_documents authorization (set_sessions w ss))
  = fst (get_documents authorization w).
Proof.
  unfold get_documents. destruct (session_of (default [] authorization)) as [[|c sid]|]; done.
Qed.

(** Nor does the deletion. *)
Lemma delete_document_ignores_sessions document_id authorization w ss :
  fst (delete_document document_id authorization (set_sessions w ss))
  = fst (delete_document document_id authorization w).
Proof.
  unfold delete_document.
  destruct (session_of (default [] authorization)) as [[|c sid]|]; [done| |done].
  unfold select_owned. cbn [documents set_sessions].
  by destruct (find _ (documents w)).
Qed.

(** C1: with a bearer token that is no session of the store, the upload is
    answered 401, but the listing answers 200 with the public documents and
    the deletion answers 404. *)
Theorem listing_and_deletion_skip_session_check :
  select_session (lit "ghost") example_world = None
  ∧ fst (@upload_file ascii_runtime ghost_upload (lit "t") (lit "d") 40 example_world)
    = (Failure (lit "Invalid session"), 401)
  ∧ fst (get_documents (Some (lit "Bearer ghost")) example_world)
    = (Documents [summary doc_public_s2] 1 3400, 200)
  ∧ fst (delete_document (lit "d1") (Some (lit "Bearer ghost")) example_world)
    = (Failure (lit "Document not found or access denied"), 404).
Proof. repeat split; by vm_compute. Qed.

(** ** Extraction from PDF files *)

(** The dashboard looks at [is_encrypted] before any page. *)
Lemma extract_pdf_text_encrypted (f : file_data) (reader : PdfReader) :
  as_pdf f = inr reader → is_encrypted reader = true →
  extract_pdf_text (inr f)
  = lit "[This PDF is encrypted and cannot be read without a password]".
Proof. intros Hf He. unfold extract_pdf_text. by rewrite Hf, He. Qed.

(** [process_pdf] is determined by the pages alone: [is_encrypted] is never
    read. *)
Lemma process_pdf_pages p w f reader :
  files w !! p = Some f → as_pdf f = inr reader →
  fst (process_pdf p w)
  = match process_pages [] (pages reader) with
    | inl e => inl (Exception (lit "Failed to process PDF: " ++ str_of_exn e))
    | inr text =>
        match strip text with
        | [] =>
            inl (Exception (lit "Failed to process PDF: "
                            ++ lit "No text content extracted from PDF"))
        | _ => inr (strip text)
        end
    end.
Proof.
  intros Hp Hf.
  unfold process_pdf, reraise, mbind, M_bind, bind, open, lift, mret, M_ret, ret, raise.
  rewrite Hp, Hf. destruct (process_pages [] (pages reader)) as [e|t]; [done|].
  by destruct (strip t).
Qed.

(** C7: [process_pdf] on a PDF that is marked encrypted and whose pages give
    text goes through the pages and returns their text; the dashboard's
    extractor stops at the mark. *)
Theorem process_pdf_reads_encrypted :
  (∃ reader, as_pdf encrypted_pdf = inr reader ∧ is_encrypted reader = true)
  ∧ fst (process_pdf (lit "uploads/t_guide.pdf")
           (on_disk (lit "uploads/t_guide.pdf") encrypted_pdf))
    = inr (lit "Nutrient film technique")
  ∧ extract_pdf_text (inr encrypted_pdf)
    = lit "[This PDF is encrypted and cannot be read without a password]".
Proof.
  split; [|split; by vm_compute].
  eexists. split; reflexivity.
Qed.

(** The dashboard's page loop goes on after a page that raises. *)
Lemma extract_pages_app text ps ps' :
  extract_pages text (ps ++ ps') = extract_pages (extract_pages text ps) ps'.
Proof.
  revert text. induction ps as [|[[|c t]|e] ps IH]; intros text; simpl; by rewrite ?IH.
Qed.

Lemma extract_pages_bad_page text ps e ps' :
  extract_pages text (ps ++ PageRaises e :: ps')
  = extract_pages
      (extract_pages text ps
       ++ lit "[Error extracting page: " ++ str_of_exn e ++ lit "]" ++ [LF])
      ps'.
Proof. by rewrite extract_pages_app. Qed.

(** The page loop of [process_pdf] stops at the first page that raises. *)
Lemma process_pages_bad_page text ps e ps' :
  Forall (λ p, ∃ t, p = PageText t) ps →
  process_pages text (ps ++ PageRaises e :: ps') = inl e.
Proof.
  intros Hps. revert text. induction Hps as [|p ps [t ->] _ IH]; intros text; [done|].
  simpl. apply IH.
Qed.

(** C8: [process_pdf] on a PDF whose second page raises gives up the whole
    document; the dashboard's extractor keeps the other pages and leaves a
    line for the failed one. *)
Theorem process_pdf_aborts_on_bad_page :
  fst (process_pdf (lit "uploads/t_guide.pdf")
         (on_disk (lit "uploads/t_guide.pdf") pdf_with_bad_page))
  = inl (Exception (lit "Failed to process PDF: bad stream"))
  ∧ extract_pdf_text (inr pdf_with_bad_page)
    = lit "page one" ++ [LF] ++ lit "[Error extracting page: bad stream]" ++ [LF]
      ++ lit "page three" ++ [LF].
Proof. split; by vm_compute. Qed.

(** ** Uploads *)

Lemma process_pdf_world p w : snd (process_pdf p w) = w.
Proof.
  unfold process_pdf, reraise, mbind, M_bind, bind, open, lift, mret, M_ret, ret, raise.
  destruct (files w !! p) as [f|]; [|done].
  destruct (as_pdf f) as [e|r]; [done|].
  destruct (process_pages [] (pages r)) as [e|t]; [done|].
  by destruct (strip t).
Qed.

Lemma process_text_world p w : snd (process_text p w) = w.
Proof.
  unfold process_text, reraise, mbind, M_bind, bind, open, lift, mret, M_ret, ret, raise.
  destruct (files w !! p) as [f|]; [|done].
  by destruct (as_text f).
Qed.

Section upload_properties.
Context `{Runtime}.

Lemma extract_world ft p w : snd (extract ft p w) = w.
Proof.
unfold extract, fmap, M_fmap, bind, ret.
destruct (bool_decide (ft = lit "pdf")).
- pose proof (process_pdf_world p w).
  destruct (process_pdf p w) as [[e|a] w']; by simplify_eq/=.
- destruct (bool_decide (ft ∈ [lit "txt"; lit "md"])); [|done].
  pose proof (process_text_world p w).
  destruct (process_text p w) as [[e|a] w']; by simplify_eq/=.
Qed.

(** The steps after the checks, path by path.  [w1] is the world with the
  temporary file written, [gone] the world with that path removed. *)
Lemma upload_steps_run sid f pub tmp doc now w :
let name := secure_filename (filename f) in
let p := temp_path tmp name in
let w1 := set_files w (<[p := stream f]> (files w)) in
let gone := set_files w (delete p (files w)) in
upload_steps sid f pub tmp doc now w =
  match rsplit1 46 name !! 1%nat with
  | None => (inl (Exception (lit "list index out of range")), w1)
  | Some ext =>
      match fst (extract (lower ext) p w1) with
      | inl e => (inl e, w1)
      | inr None =>
          (inr (Failure (lit "Unsupported file type: " ++ lower ext), 400), gone)
      | inr (Some raw) =>
          if (length (clean_content raw) <? 100)%nat
          then (inr (Failure (lit "Document content is too short to be useful"), 400),
                gone)
          else if existsb (λ r, bool_decide (Doc.id r = doc)) (documents w)
          then (inl (Exception (lit "UNIQUE constraint failed: documents.id")), w1)
          else
            (inr (Upload (uploaded_json name (lower ext) raw (st_size (stream f)) doc),
                  200),
             set_documents gone
               (documents w ++
                [uploaded_row sid name (lower ext) raw (st_size (stream f)) pub
                   doc now]))
      end
  end.
Proof.
intros name p w1 gone. unfold upload_steps. fold name. fold p.
unfold mbind, M_bind, bind, save. fold w1.
assert (Hp : files w1 !! p = Some (stream f)) by apply lookup_insert_eq.
unfold getsize, mbind, M_bind, bind, open, ret. rewrite Hp.
unfold lift. destruct (rsplit1 46 name !! 1%nat) as [ext|]; [|done].
pose proof (extract_world (lower ext) p w1) as Hw.
destruct (extract (lower ext) p w1) as [[e|[raw|]] w1']; simpl in Hw; subst w1'.
- done.
- cbn [fst]. cbv zeta. destruct (length (clean_content raw) <? 100)%nat.
  + unfold remove. rewrite Hp. unfold mret, M_ret, ret.
    subst gone w1. cbn. by rewrite delete_insert_eq.
  + unfold save_document. change (documents w1) with (documents w).
    destruct (existsb _ (documents w)); [done|].
    unfold remove. cbn [files set_documents]. rewrite Hp.
    unfold mret, M_ret, ret. subst gone w1. cbn. by rewrite delete_insert_eq.
- cbn [fst]. unfold remove. rewrite Hp. unfold mret, M_ret, ret.
  subst gone w1. cbn. by rewrite delete_insert_eq.
Qed.

(** What [upload_file] leaves on disk once the checks have passed. *)
Lemma upload_file_files req tmp doc now w sid f pub :
upload_checks req w = inr (sid, f, pub) →
files (snd (upload_file req tmp doc now w))
= delete (temp_path tmp (secure_filename (filename f))) (files w).
Proof.
intros Hc. unfold upload_file. rewrite Hc. rewrite upload_steps_run. cbv zeta.
set (p := temp_path tmp (secure_filename (filename f))).
set (w1 := set_files w (<[p := stream f]> (files w))).
assert (Hfail : ∀ e : exn,
  files (snd (B:=world) ((Failure (str_of_exn e), 500) : response,
               if exists_ p w1 then snd (remove p w1) else w1))
  = delete p (files w)).
{ intros e. unfold exists_, remove.
  assert (Hp : files w1 !! p = Some (stream f)) by apply lookup_insert_eq.
  rewrite Hp. rewrite bool_decide_eq_true_2 by eauto.
  subst w1. cbn. by rewrite delete_insert_eq. }
destruct (rsplit1 46 (secure_filename (filename f)) !! 1%nat) as [ext|];
  [|apply Hfail].
destruct (fst (extract (lower ext) p w1)) as [e|[raw|]]; [apply Hfail| |done].
destruct (length (clean_content raw) <? 100)%nat; [done|].
destruct (existsb _ (documents w)); [apply Hfail|done].
Qed.

(** C6: once the checks have passed and the upload has been written to its
  temporary path, the request ends with that path removed and every other
  path as it was, whatever the answer: accepted, extraction failure,
  unsupported type, content too short, or an exception on the way. *)
Theorem upload_file_removes_temp_file (req : upload_request) (tmp doc : str) (now : N)
  (w : world) (sid : str) (f : FileStorage) (pub : bool) :
upload_checks req w = inr (sid, f, pub) →
let p := temp_path tmp (secure_filename (filename f)) in
let w' := snd (upload_file req tmp doc now w) in
files w' !! p = None ∧ (∀ q, q ≠ p → files w' !! q = files w !! q).
Proof.
intros Hc p w'. subst w'. rewrite (upload_file_files _ _ _ _ _ _ _ _ Hc). fold p.
split; [apply lookup_delete_eq|]. intros q Hq. by apply lookup_delete_ne.
Qed.


End upload_properties.

Lemma upload_file_removes_temp_file_witness :
  let w' :=
    snd (@upload_file ascii_runtime (text_upload (lit "notes.txt") (lit "hello"))
           (lit "t") (lit "d9") 40 example_world) in
  files w' !! lit "uploads/t_notes.txt" = None.
Proof.
  cbv zeta.
  refine (proj1 (@upload_file_removes_temp_file ascii_runtime
           (text_upload (lit "notes.txt") (lit "hello")) (lit "t") (lit "d9") 40
           example_world (lit "s1")
           {| filename := lit "notes.txt";
              stream := {| st_size := 5;
                           as_pdf := inl (PdfReadError (lit "EOF marker not found"));
                           as_text := inr (lit "hello") |} |} true _)).
  by vm_compute.
Defined.


(** The four ways out of an upload that has been written to disk, on the
    example data: accepted, extraction failure, content too short, and an
    exception from the insertion. *)
Lemma upload_exit_paths :
  let run req doc := @upload_file ascii_runtime req (lit "t") doc 40 example_world in
  snd (fst (run (text_upload (lit "notes.txt") (replicate 100 97)) (lit "d9"))) = 200
  ∧ fst (run (text_upload (lit "notes.pdf") (replicate 100 97)) (lit "d9"))
    = (Failure (lit "Failed to process PDF: EOF marker not found"), 500)
  ∧ fst (run (text_upload (lit "notes.txt") (lit "hello")) (lit "d9"))
    = (Failure (lit "Document content is too short to be useful"), 400)
  ∧ fst (run (text_upload (lit "notes.txt") (replicate 100 97)) (lit "d1"))
    = (Failure (lit "UNIQUE constraint failed: documents.id"), 500).
Proof. cbv zeta. split; [|split; [|split]]; by vm_compute. Qed.

(** * Further properties of the code *)

(** ** More on [replace], [split] and [strip] *)

Lemma startswith_app old s :
  startswith old s = true → ∃ rest, s = old ++ rest.
Proof.
  revert s. induction old as [|x old IH]; intros s; [by exists s|].
  destruct s as [|c s]; [done|]. simpl.
  intros [Hx Hs]%andb_true_iff. apply N.eqb_eq in Hx as ->.
  destruct (IH s Hs) as [rest ->]. by exists rest.
Qed.

Lemma startswith_refl old rest : startswith old (old ++ rest) = true.
Proof.
  induction old as [|x old IH]; [done|]. simpl. by rewrite N.eqb_refl, IH.
Qed.

Lemma replace_from_skip old new pre rest :
  replace_from old new (length pre) (pre ++ rest) = replace_from old new O rest.
Proof. induction pre as [|c pre IH]; [done|]. exact IH. Qed.

Lemma replace_match old new rest :
  old ≠ [] → replace old new (old ++ rest) = new ++ replace old new rest.
Proof.
  intros Hne. destruct old as [|x old]; [done|]. unfold replace.
  change ((x :: old) ++ rest) with (x :: (old ++ rest)).
  cbn [replace_from]. change (x :: (old ++ rest)) with ((x :: old) ++ rest).
  rewrite startswith_refl. cbn [length pred]. by rewrite replace_from_skip.
Qed.

Lemma replace_no_match old new c s :
  startswith old (c :: s) = false →
  replace old new (c :: s) = c :: replace old new s.
Proof. intros Hs. unfold replace. cbn [replace_from]. by rewrite Hs. Qed.

Lemma split_from_space_run cur ws rest :
  space_run ws →
  split_from cur (ws ++ rest)
  = match cur with [] => split_from [] rest | _ => cur :: split_from [] rest end.
Proof.
  intros [Hne Hws]. revert cur. induction Hws as [|c ws Hc Hws IH]; [done|].
  intros cur. cbn [app split_from]. rewrite Hc.
  destruct ws as [|d ws]; [done|].
  rewrite (IH ltac:(done) []). by destruct cur.
Qed.

(** Replacing one run of whitespace by another does not change the words. *)
Lemma split_from_replace old new s cur :
  space_run old → space_run new →
  split_from cur (replace old new s) = split_from cur s.
Proof.
  intros Hold Hnew.
  assert (Hall : ∀ n s, (length s ≤ n)%nat →
            ∀ cur, split_from cur (replace old new s) = split_from cur s);
    [|by apply (Hall (length s))].
  clear s cur. induction n as [|n IH]; intros s Hlen cur.
  { destruct s; [done|simpl in Hlen; lia]. }
  destruct s as [|c s]; [done|].
  destruct (startswith old (c :: s)) eqn:Hst.
  - destruct (startswith_app _ _ Hst) as [rest E]. rewrite E.
    rewrite replace_match by apply Hold.
    rewrite !split_from_space_run by done.
    assert (Hrest : (length rest ≤ n)%nat).
    { apply (f_equal length) in E. rewrite length_app in E. simpl in *.
      destruct Hold as [Hne _]. destruct old; [done|]. simpl in E. lia. }
    by rewrite (IH rest Hrest []).
  - rewrite replace_no_match by done. simpl in Hlen. cbn [split_from].
    destruct (is_space c); [|apply IH; lia].
    rewrite (IH s ltac:(lia) []). done.
Qed.

Lemma split_clean_content_input s :
  split (replace [LF; LF; LF] [LF; LF] (replace [CR; LF] [LF] s)) = split s.
Proof.
  unfold split. rewrite !split_from_replace; [done|..];
    (split; [done|]); repeat constructor.
Qed.

Lemma clean_content_words s : clean_content s = join [SP] (split s).
Proof.
  unfold clean_content. rewrite split_clean_content_input.
  apply spaced_strip, spaced_join_split.
Qed.

(** X1: the two line-ending replacements of [clean_content] never show in
    its result, which is the words of the input joined by single spaces;
    splitting the cleaned text gives back the words of the input, in order. *)
Theorem clean_content_join_split (s : str) :
  clean_content s = join [SP] (split s) ∧ split (clean_content s) = split s.
Proof.
  split; [apply clean_content_words|].
  rewrite clean_content_words. apply split_join, split_words.
Qed.

Lemma split_from_nil cur s :
  split_from cur s = [] ↔ cur = [] ∧ Forall (λ c, is_space c = true) s.
Proof.
  revert cur. induction s as [|c s IH]; intros cur; simpl.
  - destruct cur; split; [done|done|done|by intros [? _]].
  - destruct (is_space c) eqn:Hc.
    + destruct cur as [|x cur].
      * rewrite IH. split; intros [? Hs]; (split; [done|]).
        -- by constructor.
        -- by inversion Hs.
      * split; [done|by intros [? _]].
    + rewrite IH. split.
      * intros [E _]. by destruct cur.
      * intros [_ Hs]. inversion Hs; congruence.
Qed.

Lemma join_nil ws : Forall word ws → join [SP] ws = [] → ws = [].
Proof.
  intros Hws. destruct Hws as [|w ws [Hne _] _]; [done|].
  destruct w; [done|]. destruct ws; discriminate.
Qed.

(** X2: the cleaned text is empty exactly when the input is empty or
    whitespace only. *)
Theorem clean_content_empty_iff (s : str) :
  clean_content s = [] ↔ Forall (λ c, is_space c = true) s.
Proof.
  rewrite clean_content_words. split.
  - intros Hj. apply join_nil in Hj; [|apply split_words].
    by apply split_from_nil in Hj as [_ ?].
  - intros Hs. unfold split. by rewrite (proj2 (split_from_nil [] s)).
Qed.

Lemma length_join_split_from cur s :
  (length (join [SP] (split_from cur s)) ≤ length cur + length s)%nat.
Proof.
  revert cur. induction s as [|c s IH]; intros cur; simpl.
  - destruct cur; simpl; lia.
  - destruct (is_space c).
    + destruct cur as [|x cur]; [specialize (IH []); simpl in *; lia|].
      specialize (IH []). destruct (split_from [] s) eqn:E.
      * simpl. lia.
      * rewrite join_cons2, !length_app. simpl in *. lia.
    + specialize (IH (cur ++ [c])). rewrite length_app in IH. simpl in IH. lia.
Qed.

(** X3: cleaning never lengthens a text. *)
Theorem clean_content_length (s : str) :
  (length (clean_content s) ≤ length s)%nat.
Proof. rewrite clean_content_words. apply (length_join_split_from [] s). Qed.

Lemma lstrip_suffix s :
  ∃ ws, s = ws ++ lstrip s ∧ Forall (λ c, is_space c = true) ws.
Proof.
  induction s as [|c s (ws & E & Hws)]; [by exists []|]. simpl.
  destruct (is_space c) eqn:Hc.
  - exists (c :: ws). split; [by rewrite E at 1|by constructor].
  - by exists [].
Qed.

Lemma lstrip_head_nonspace s c : head (lstrip s) = Some c → nonspace c.
Proof.
  induction s as [|d s IH]; [done|]. simpl.
  destruct (is_space d) eqn:Hd; [done|]. by intros [= <-].
Qed.

Lemma rstrip_prefix t :
  ∃ ws, t = rstrip t ++ ws ∧ Forall (λ c, is_space c = true) ws.
Proof.
  destruct (lstrip_suffix (reverse t)) as (ws & E & Hws).
  exists (reverse ws). split; [|by apply Forall_reverse].
  unfold rstrip. rewrite <- reverse_app, <- E. by rewrite reverse_involutive.
Qed.

Lemma rstrip_last_nonspace t c : last (rstrip t) = Some c → nonspace c.
Proof. unfold rstrip. rewrite last_reverse. apply lstrip_head_nonspace. Qed.

Lemma strip_head_nonspace s c : head (strip s) = Some c → nonspace c.
Proof.
  unfold strip. destruct (rstrip_prefix (lstrip s)) as (ws & E & _).
  intros Hh. apply (lstrip_head_nonspace s). rewrite E.
  destruct (rstrip (lstrip s)); [done|]. exact Hh.
Qed.

Lemma strip_last_nonspace s c : last (strip s) = Some c → nonspace c.
Proof. apply rstrip_last_nonspace. Qed.

(** [strip] takes whitespace off both ends and nothing else. *)
Lemma strip_infix s :
  ∃ a b, s = a ++ strip s ++ b
         ∧ Forall (λ c, is_space c = true) a ∧ Forall (λ c, is_space c = true) b.
Proof.
  destruct (lstrip_suffix s) as (a & Ea & Ha).
  destruct (rstrip_prefix (lstrip s)) as (b & Eb & Hb).
  exists a, b. split; [|done]. unfold strip. by rewrite <- Eb.
Qed.

Lemma strip_fixed s :
  (∀ c, head s = Some c → nonspace c) → (∀ c, last s = Some c → nonspace c) →
  strip s = s.
Proof.
  intros Hh Hl. unfold strip, rstrip. rewrite (lstrip_head s Hh).
  rewrite (lstrip_head (reverse s)), reverse_involutive; [done|].
  intros c. rewrite head_reverse. apply Hl.
Qed.

Lemma strip_idem s : strip (strip s) = strip s.
Proof.
  apply strip_fixed; intros c; [apply strip_head_nonspace|apply strip_last_nonspace].
Qed.

(** ** The two readers of the upload route *)

(** X4: [process_pdf] leaves the world alone; what it returns is never empty
    and has no whitespace at either end; whatever it raises carries the
    message prefix "Failed to process PDF: ". *)
Theorem process_pdf_outcome (p : str) (w : world) :
  snd (process_pdf p w) = w
  ∧ match fst (process_pdf p w) with
    | inr t =>
        t ≠ [] ∧ (∀ c, head t = Some c → is_space c = false)
        ∧ (∀ c, last t = Some c → is_space c = false)
    | inl e => ∃ m, e = Exception (lit "Failed to process PDF: " ++ m)
    end.
Proof.
  split; [apply process_pdf_world|].
  unfold process_pdf, reraise, mbind, M_bind, bind, open, lift, mret, M_ret, ret, raise.
  destruct (files w !! p) as [f|]; [|by eexists].
  destruct (as_pdf f) as [e|r]; [by eexists|].
  destruct (process_pages [] (pages r)) as [e|t]; [by eexists|].
  destruct (strip t) as [|c t'] eqn:E; [by eexists|].
  cbn [fst]. rewrite <- E. split; [by rewrite E|].
  split; intros d; [apply strip_head_nonspace|apply strip_last_nonspace].
Qed.

(** X5: [process_text] returns the decoded text of the file with the
    whitespace at both ends taken off and nothing else changed; a missing
    file or a decoding error is raised with the message prefix
    "Failed to process text file: ". *)
Theorem process_text_outcome (p : str) (w : world) :
  snd (process_text p w) = w
  ∧ match fst (process_text p w) with
    | inr r =>
        ∃ f t a b,
          files w !! p = Some f ∧ as_text f = inr t ∧ t = a ++ r ++ b
          ∧ Forall (λ c, is_space c = true) a ∧ Forall (λ c, is_space c = true) b
          ∧ (∀ c, head r = Some c → is_space c = false)
          ∧ (∀ c, last r = Some c → is_space c = false)
    | inl e => ∃ m, e = Exception (lit "Failed to process text file: " ++ m)
    end.
Proof.
  split; [apply process_text_world|].
  unfold process_text, reraise, mbind, M_bind, bind, open, lift, mret, M_ret, ret, raise.
  destruct (files w !! p) as [f|] eqn:Hp; [|by eexists].
  destruct (as_text f) as [e|t] eqn:Ht; [by eexists|].
  cbn [fst]. destruct (strip_infix t) as (a & b & E & Ha & Hb).
  exists f, t, a, b. repeat split; try done.
  - intros c. apply strip_head_nonspace.
  - intros c. apply strip_last_nonspace.
Qed.

Lemma process_pages_extract_pages text ps :
  Forall (λ pg, ∃ t, pg = PageText t ∧ t ≠ []) ps →
  process_pages text ps = inr (extract_pages text ps).
Proof.
  intros Hps. revert text.
  induction Hps as [|pg ps (t & -> & Ht) _ IH]; intros text; [done|].
  simpl. destruct t as [|c t]; [done|]. apply IH.
Qed.

(** X6: on a PDF that is not marked encrypted and whose pages all give
    non-empty text, the upload route's [process_pdf] returns what the
    dashboard's [extract_pdf_text] returns, stripped (provided that is not
    empty). *)
Theorem process_pdf_agrees_with_dashboard (p : str) (w : world) (f : file_data)
    (reader : PdfReader) :
  files w !! p = Some f → as_pdf f = inr reader → is_encrypted reader = false →
  Forall (λ pg, ∃ t, pg = PageText t ∧ t ≠ []) (pages reader) →
  strip (extract_pdf_text (inr f)) ≠ [] →
  process_pdf p w = (inr (strip (extract_pdf_text (inr f))), w).
Proof.
  intros Hp Hf Henc Hpages Hne.
  unfold extract_pdf_text in *. rewrite Hf, Henc in *.
  unfold process_pdf, reraise, mbind, M_bind, bind, open, lift, mret, M_ret, ret, raise.
  rewrite Hp, Hf, process_pages_extract_pages by done.
  by destruct (strip (extract_pages [] (pages reader))).
Qed.

Lemma process_pdf_agrees_with_dashboard_witness :
  process_pdf (lit "uploads/t_guide.pdf")
    (on_disk (lit "uploads/t_guide.pdf") two_page_pdf)
  = (inr (lit "page one" ++ [LF] ++ lit "page two"),
     on_disk (lit "uploads/t_guide.pdf") two_page_pdf).
Proof.
  rewrite (process_pdf_agrees_with_dashboard (lit "uploads/t_guide.pdf")
             (on_disk (lit "uploads/t_guide.pdf") two_page_pdf) two_page_pdf
             {| is_encrypted := false;
                pages := [PageText (lit "page one"); PageText (lit "page two")] |});
    [by vm_compute|by vm_compute|reflexivity|reflexivity| |by vm_compute].
  repeat constructor; eexists; (split; [reflexivity|done]).
Defined.

(** ** Bearer tokens and the checks before an upload *)

Lemma session_of_prefixed (sid : str) :
  66 ∉ sid → session_of (lit "Bearer " ++ sid) = Some sid.
Proof.
  intros HB. unfold session_of. rewrite startswith_refl.
  rewrite replace_match by done. cbn [app].
  change (lit "Bearer ") with (66 :: lit "earer "). by rewrite replace_absent.
Qed.

(** X7: a header made of "Bearer " and a token without the letter [B] (any
    UUID) parses back to that token; a header that does not start with
    "Bearer " carries no token. *)
Theorem session_of_bearer (sid h : str) :
  66 ∉ sid →
  session_of (lit "Bearer " ++ sid) = Some sid
  ∧ (startswith (lit "Bearer ") h = false → session_of h = None).
Proof.
  intros HB. split; [by apply session_of_prefixed|].
  intros Hh. unfold session_of. by rewrite Hh.
Qed.

Lemma session_of_bearer_witness :
  session_of (lit "Bearer 3f2c9a1e-7d4b-4c1a-9e0f-5a6b7c8d9e0f")
  = Some (lit "3f2c9a1e-7d4b-4c1a-9e0f-5a6b7c8d9e0f").
Proof.
  apply (session_of_bearer (lit "3f2c9a1e-7d4b-4c1a-9e0f-5a6b7c8d9e0f") []).
  apply (bool_decide_unpack _). by vm_compute.
Defined.

Lemma select_session_Some sid w r :
  select_session sid w = Some r → r ∈ sessions w ∧ Sess.session_id r = sid.
Proof.
  unfold select_session. intros Hf. apply find_some in Hf as [Hin Hb].
  apply bool_decide_eq_true in Hb. split; [by apply list_elem_of_In|done].
Qed.

Lemma select_session_None sid w r :
  select_session sid w = None → r ∈ sessions w → Sess.session_id r ≠ sid.
Proof.
  unfold select_session. intros Hf Hin. apply list_elem_of_In in Hin.
  apply (find_none _ _ Hf) in Hin. by apply bool_decide_eq_false in Hin.
Qed.

Lemma contains_elem_of sep s : contains sep s = true ↔ sep ∈ s.
Proof.
  unfold contains. rewrite existsb_exists. split.
  - intros (x & Hin & ->%N.eqb_eq). by apply list_elem_of_In.
  - intros Hin. exists sep. split; [by apply list_elem_of_In|apply N.eqb_refl].
Qed.

Section checks.
Context `{Runtime}.

(** X8: a name is allowed exactly when it has a ['.'] and the part after
    its last ['.'], lower-cased, is [pdf], [txt] or [md]. *)
Theorem allowed_file_iff (name : str) :
  allowed_file name = true
  ↔ ∃ stem ext, name = stem ++ lit "." ++ ext ∧ (46 ∉ ext)
                ∧ lower ext ∈ ALLOWED_EXTENSIONS.
Proof.
  unfold allowed_file, rsplit1. split.
  - intros [Hdot Hext]%andb_true_iff.
    destruct (rcut 46 name) as [[stem ext]|] eqn:E.
    + apply rcut_Some in E as [-> Hno]. exists stem, ext.
      split; [done|]. split; [done|]. by apply bool_decide_eq_true in Hext.
    + apply rcut_None in E. congruence.
  - intros (stem & ext & -> & Hno & Hin).
    apply andb_true_iff. split.
    + apply contains_elem_of. apply elem_of_app. right. left.
    + change (stem ++ lit "." ++ ext) with (stem ++ 46 :: ext).
      rewrite rcut_last by done. simpl. by apply bool_decide_eq_true.
Qed.

Lemma upload_checks_inr req w sid f pub :
  upload_checks req w = inr (sid, f, pub) →
  session_of (default [] (Authorization req)) = Some sid ∧ sid ≠ []
  ∧ (∃ r, select_session sid w = Some r)
  ∧ file req = Some f ∧ filename f ≠ [] ∧ allowed_file (filename f) = true
  ∧ pub = bool_decide (lower (default (lit "false") (isPublic req)) = lit "true").
Proof.
  unfold upload_checks.
  destruct (session_of (default [] (Authorization req))) as [[|c s]|]; [done| |done].
  destruct (select_session (c :: s) w) as [r|] eqn:Hsel; [|done].
  destruct (file req) as [f'|]; [|done].
  destruct (filename f') as [|d n] eqn:En; [done|].
  destruct (allowed_file (d :: n)) eqn:Ha; [|done].
  intros [= <- <- <-]. rewrite En.
  split; [done|]. split; [done|]. split; [by exists r|]. by rewrite Ha.
Qed.

Lemma upload_checks_inl req w resp :
  upload_checks req w = inl resp →
  (∃ msg, fst resp = Failure msg) ∧ (snd resp = 401 ∨ snd resp = 400).
Proof.
  unfold upload_checks.
  destruct (session_of (default [] (Authorization req))) as [[|c s]|];
    [intros [= <-]; eauto| |intros [= <-]; eauto].
  destruct (select_session (c :: s) w) as [r|]; [|intros [= <-]; eauto].
  destruct (file req) as [f'|]; [|intros [= <-]; eauto].
  destruct (filename f') as [|d n]; [intros [= <-]; eauto|].
  destruct (allowed_file (d :: n)); [done|intros [= <-]; eauto].
Qed.

(** X9: without a header that starts with "Bearer ", or with nothing after
    it, the upload, the listing and the deletion all answer 401 "No session
    token provided" and change nothing. *)
Theorem routes_need_bearer_token (req : upload_request) (document_id tmp doc : str)
    (now : N) (w : world) :
  let h := default [] (Authorization req) in
  startswith (lit "Bearer ") h = false ∨ h = lit "Bearer " →
  let unauthorized := (Failure (lit "No session token provided"), 401) in
  upload_file req tmp doc now w = (unauthorized, w)
  ∧ get_documents (Authorization req) w = (unauthorized, w)
  ∧ delete_document document_id (Authorization req) w = (unauthorized, w).
Proof.
  intros h Hh unauthorized.
  assert (Hs : session_of h = None ∨ session_of h = Some []).
  { destruct Hh as [Hh| ->]; [left|right; by vm_compute].
    unfold session_of. by rewrite Hh. }
  unfold upload_file, upload_checks, get_documents, delete_document. fold h.
  by destruct Hs as [-> | ->].
Qed.
End checks.

Lemma routes_need_bearer_token_witness :
  get_documents (Some (lit "Basic dXNlcjpwdw==")) example_world
  = ((Failure (lit "No session token provided"), 401), example_world).
Proof.
  apply (@routes_need_bearer_token ascii_runtime
           {| Authorization := Some (lit "Basic dXNlcjpwdw=="); file := None;
              isPublic := None |} [] [] [] 0 example_world).
  left. by vm_compute.
Defined.

(** X10: the preview of a content never has more than 503 characters and
    starts like the content; it is the content itself when that has at most
    500 characters and has exactly 503 characters otherwise. *)
Theorem preview_bound (content : str) :
  (length (preview content) ≤ 503)%nat
  ∧ take 500 (preview content) = take 500 content
  ∧ ((length content ≤ 500)%nat → preview content = content)
  ∧ ((500 < length content)%nat → length (preview content) = 503%nat).
Proof.
  assert (Hdots : length (lit "...") = 3%nat) by reflexivity.
  unfold preview. destruct (Nat.ltb_spec 500 (length content)) as [Hlt|Hle].
  - rewrite length_app, length_take, Hdots.
    split; [lia|]. split; [|split; lia].
    rewrite take_app_le by (rewrite length_take; lia).
    rewrite take_take. reflexivity.
  - split; [lia|]. split; [done|]. split; [done|lia].
Qed.

(** ** What an upload writes *)

Lemma existsb_id_false doc (rows : list Doc.row) :
  existsb (λ r, bool_decide (Doc.id r = doc)) rows = false →
  ∀ r, r ∈ rows → Doc.id r ≠ doc.
Proof.
  intros He r Hin Hid.
  assert (Ht : existsb (λ r, bool_decide (Doc.id r = doc)) rows = true);
    [|congruence].
  apply existsb_exists. exists r.
  split; [by apply list_elem_of_In|by apply bool_decide_eq_true].
Qed.

Section upload_cases.
Context `{Runtime}.

(** The handler of [upload_file] on the world with the temporary file. *)
Lemma upload_handler_gone (w : world) (p : str) (x : file_data) :
  let w1 := set_files w (<[p := x]> (files w)) in
  (if exists_ p w1 then snd (remove p w1) else w1)
  = set_files w (delete p (files w)).
Proof.
  intros w1. unfold exists_, remove.
  assert (Hp : files w1 !! p = Some x) by apply lookup_insert_eq.
  rewrite Hp, bool_decide_eq_true_2 by eauto.
  subst w1. cbn. by rewrite delete_insert_eq.
Qed.

(** Past the checks, an upload either fails and leaves only the temporary
    path removed, or appends its row. *)
Lemma upload_file_after_checks req tmp doc now w sid f pub :
  upload_checks req w = inr (sid, f, pub) →
  let name := secure_filename (filename f) in
  let p := temp_path tmp name in
  let gone := set_files w (delete p (files w)) in
  (∃ msg code, (code = 400 ∨ code = 500)
     ∧ upload_file req tmp doc now w = ((Failure msg, code), gone))
  ∨ (∃ ext raw,
       rsplit1 46 name !! 1%nat = Some ext
       ∧ fst (extract (lower ext) p (set_files w (<[p := stream f]> (files w))))
         = inr (Some raw)
       ∧ (100 ≤ length (clean_content raw))%nat
       ∧ (∀ r, r ∈ documents w → Doc.id r ≠ doc)
       ∧ upload_file req tmp doc now w
         = ((Upload (uploaded_json name (lower ext) raw (st_size (stream f)) doc),
             200),
            set_documents gone
              (documents w ++
               [uploaded_row sid name (lower ext) raw (st_size (stream f)) pub
                  doc now]))).
Proof.
  intros Hc name p gone. unfold upload_file. rewrite Hc, upload_steps_run.
  cbv zeta. fold name. fold p.
  pose proof (upload_handler_gone w p (stream f)) as Hgone. cbv zeta in Hgone.
  fold gone in Hgone.
  destruct (rsplit1 46 name !! 1%nat) as [ext|].
  2:{ left. eexists _, 500. rewrite Hgone. split; [by (left + right)|reflexivity]. }
  destruct (fst (extract (lower ext) p _)) as [e|[raw|]] eqn:Hex.
  - left. eexists _, 500. rewrite Hgone. split; [by (left + right)|reflexivity].
  - destruct (Nat.ltb_spec (length (clean_content raw)) 100) as [Hlt|Hge].
    { left. eexists _, 400. split; [by (left + right)|reflexivity]. }
    destruct (existsb _ (documents w)) eqn:Hdup.
    { left. eexists _, 500. rewrite Hgone. split; [by (left + right)|reflexivity]. }
    right. exists ext, raw. split; [done|]. split; [done|]. split; [done|].
    split; [by apply existsb_id_false|done].
  - left. eexists _, 400. split; [by (left + right)|reflexivity].
Qed.

Lemma upload_file_rejected req tmp doc now w resp :
  upload_checks req w = inl resp → upload_file req tmp doc now w = (resp, w).
Proof. intros Hc. unfold upload_file. by rewrite Hc. Qed.

Lemma upload_file_effect (req : upload_request) (tmp doc : str) (now : N)
    (w : world) :
  sessions (snd (upload_file req tmp doc now w)) = sessions w
  ∧ ((∃ d row sid r,
        fst (upload_file req tmp doc now w) = (Upload d, 200)
        ∧ documents (snd (upload_file req tmp doc now w)) = documents w ++ [row]
        ∧ Doc.id row = Uploaded.id d ∧ Doc.id row = doc
        ∧ (∀ r', r' ∈ documents w → Doc.id r' ≠ doc)
        ∧ session_of (default [] (Authorization req)) = Some sid ∧ sid ≠ []
        ∧ Doc.uploaded_by row = Some sid
        ∧ select_session sid w = Some r
        ∧ Doc.is_public row
          = bool_decide (lower (default (lit "false") (isPublic req)) = lit "true")
        ∧ (100 ≤ length (Doc.content row))%nat
        ∧ clean_content (Doc.content row) = Doc.content row
        ∧ (length (Doc.title row) ≤ 100)%nat)
     ∨ (∃ msg code,
          fst (upload_file req tmp doc now w) = (Failure msg, code) ∧ code ≠ 200
          ∧ documents (snd (upload_file req tmp doc now w)) = documents w)).
Proof.
  destruct (upload_checks req w) as [resp|[[sid f] pub]] eqn:Hc.
  - rewrite (upload_file_rejected _ _ _ _ _ _ Hc). split; [done|]. right.
    destruct (upload_checks_inl _ _ _ Hc) as [[msg Hm] Hcode].
    destruct resp as [b code]. simpl in *. subst b. exists msg, code.
    split; [done|]. split; [|done]. by destruct Hcode as [-> | ->].
  - destruct (upload_checks_inr _ _ _ _ _ Hc) as (Hsid & Hne & [r Hr] & _ & _ & _ & Hpub).
    destruct (upload_file_after_checks _ tmp doc now _ _ _ _ Hc)
      as [(msg & code & Hcode & ->)|(ext & raw & _ & _ & Hlen & Hfresh & ->)].
    + split; [done|]. right. exists msg, code.
      split; [done|]. split; [|done]. by destruct Hcode as [-> | ->].
    + split; [done|]. left. eexists _, _, sid, r. split; [reflexivity|].
      split; [reflexivity|]. cbn.
      split; [done|]. split; [done|]. split; [done|]. split; [done|].
      split; [done|]. split; [done|]. split; [done|]. split; [done|].
      split; [done|].
      split; [apply clean_content_of_spaced, clean_content_spaced|].
      unfold generate_title. rewrite length_take. lia.
Qed.

(** X11: an upload never touches the sessions; it either answers 200 and
    appends exactly one row, whose id is the one in the answer and whose
    owner is the session of the bearer token, or it answers with a failure
    and leaves the documents as they were. *)
Theorem upload_file_all_or_nothing (req : upload_request) (tmp doc : str) (now : N)
    (w : world) :
  let r := upload_file req tmp doc now w in
  sessions (snd r) = sessions w
  ∧ ((∃ d row, fst r = (Upload d, 200) ∧ documents (snd r) = documents w ++ [row]
               ∧ Doc.id row = Uploaded.id d
               ∧ Doc.uploaded_by row
                 = session_of (default [] (Authorization req)))
     ∨ (∃ msg code, fst r = (Failure msg, code) ∧ code ≠ 200
                    ∧ documents (snd r) = documents w)).
Proof.
  cbv zeta. destruct (upload_file_effect req tmp doc now w) as [Hs Hd].
  split; [done|].
  destruct Hd as [(d & row & sid & r & Hr & Hdocs & Hid & _ & _ & Hsid & _ & Hown & _)|Hf];
    [left|by right].
  exists d, row. rewrite Hsid. by repeat split.
Qed.
End upload_cases.

(** ** What the other routes write *)

Lemma get_documents_world authorization w : snd (get_documents authorization w) = w.
Proof.
  unfold get_documents.
  by destruct (session_of (default [] authorization)) as [[|c s]|].
Qed.

Lemma delete_document_effect document_id authorization w :
  (∃ msg code, delete_document document_id authorization w = ((Failure msg, code), w)
               ∧ code ≠ 200)
  ∨ (∃ sid r, session_of (default [] authorization) = Some sid ∧ sid ≠ []
              ∧ select_owned document_id sid w = Some r
              ∧ delete_document document_id authorization w
                = ((Deleted (lit "Document deleted successfully"), 200),
                   delete_row document_id w)).
Proof.
  unfold delete_document.
  destruct (session_of (default [] authorization)) as [[|c s]|];
    [left; by eexists _, 401| |left; by eexists _, 401].
  destruct (select_owned document_id (c :: s) w) as [r|] eqn:Hsel;
    [|left; by eexists _, 404].
  right. by exists (c :: s), r.
Qed.

Lemma create_session_effect data uuid4 now w :
  documents (snd (create_session data uuid4 now w)) = documents w
  ∧ files (snd (create_session data uuid4 now w)) = files w
  ∧ (snd (create_session data uuid4 now w) = w
     ∨ ∃ row,
         sessions (snd (create_session data uuid4 now w)) = sessions w ++ [row]
         ∧ Sess.session_id row = uuid4 ∧ Sess.user_id row = userId data
         ∧ select_session uuid4 w = None
         ∧ fst (create_session data uuid4 now w) = (SessionCreated uuid4 uuid4, 200)
         ∧ (∀ u, userId data = Some u → u ≠ [] →
                 select_session_of_user u w = None)).
Proof.
  unfold create_session.
  set (existing := match userId data with
                   | Some ((_ :: _) as u) => select_session_of_user u w
                   | _ => None
                   end).
  destruct existing as [r|] eqn:Hex; [by (split; [|split; [|left]])|].
  unfold insert_session. destruct (select_session uuid4 w) eqn:Hsel;
    [by (split; [|split; [|left]])|].
  split; [done|]. split; [done|]. right. eexists. split; [reflexivity|].
  cbn. split; [done|]. split; [done|]. split; [done|]. split; [done|].
  intros u Hu Hne. subst existing. rewrite Hu in Hex. by destruct u.
Qed.

Lemma stored_ok_mono w w' r :
  (∀ s, s ∈ sessions w → s ∈ sessions w') → stored_ok w r → stored_ok w' r.
Proof.
  intros Hsub (Hlen & Hclean & Htitle & s & Hs & Hown).
  split; [done|]. split; [done|]. split; [done|]. exists s. by split; [apply Hsub|].
Qed.

Section invariants.
Context `{Runtime}.

(** X12: every route keeps the documents table well formed: each stored
    content is cleaned text of at least 100 characters, each title has at
    most 100 characters, each owner is a session of the store, and no two
    rows share an id. *)
Theorem routes_keep_documents_ok (w : world) :
  documents_ok w →
  (∀ req tmp doc now, documents_ok (snd (upload_file req tmp doc now w)))
  ∧ (∀ document_id authorization,
       documents_ok (snd (delete_document document_id authorization w)))
  ∧ (∀ data uuid4 now, documents_ok (snd (create_session data uuid4 now w)))
  ∧ (∀ authorization, documents_ok (snd (get_documents authorization w))).
Proof.
  intros [Hok Hkey]. split; [|split; [|split]].
  - intros req tmp doc now.
    destruct (upload_file_effect req tmp doc now w) as [Hs Hd].
    assert (Hmono : ∀ r, stored_ok w r →
              stored_ok (snd (upload_file req tmp doc now w)) r).
    { intros r. apply stored_ok_mono. by rewrite Hs. }
    unfold documents_ok.
    destruct Hd as [(d & row & sid & s & _ & -> & _ & Hid & Hfresh & _ & _ & Hown & Hsel
                      & _ & Hlen & Hclean & Htitle)|(msg & code & _ & _ & ->)].
    + split.
      * apply Forall_app. split; [by eapply Forall_impl|].
        constructor; [|done]. apply select_session_Some in Hsel as [Hin <-].
        split; [done|]. split; [done|]. split; [done|]. exists s.
        by rewrite Hs.
      * rewrite fmap_app. apply NoDup_app. split; [done|]. split.
        -- intros x Hx [->|Hnil]%elem_of_cons; [|by inversion Hnil].
           apply list_elem_of_fmap in Hx as (r' & E & Hr').
           apply (Hfresh r' Hr'). congruence.
        -- apply NoDup_singleton.
    + split; [by eapply Forall_impl|done].
  - intros document_id authorization.
    destruct (delete_document_effect document_id authorization w)
      as [(msg & code & -> & _)|(sid & r & _ & _ & _ & ->)]; [done|].
    unfold documents_ok, delete_row. cbn. split.
    + apply Forall_forall. intros r' [_ Hr']%list_elem_of_filter.
      rewrite Forall_forall in Hok. by apply Hok.
    + eapply sublist_NoDup; [exact Hkey|]. apply fmap_sublist, sublist_filter.
  - intros data uuid4 now.
    destruct (create_session_effect data uuid4 now w) as (Hd & _ & Hs).
    unfold documents_ok. rewrite Hd. split; [|done].
    eapply Forall_impl; [exact Hok|]. intros r. apply stored_ok_mono.
    destruct Hs as [->|(row & -> & _)]; [done|].
    intros s Hin. apply elem_of_app. by left.
  - intros authorization. by rewrite get_documents_world.
Qed.

(** X13: every route keeps the sessions table well formed: no two sessions
    share a session id, and no two share a non-empty user id. *)
Theorem routes_keep_sessions_ok (w : world) :
  sessions_ok w →
  (∀ data uuid4 now, sessions_ok (snd (create_session data uuid4 now w)))
  ∧ (∀ req tmp doc now, sessions_ok (snd (upload_file req tmp doc now w)))
  ∧ (∀ document_id authorization,
       sessions_ok (snd (delete_document document_id authorization w)))
  ∧ (∀ authorization, sessions_ok (snd (get_documents authorization w))).
Proof.
  intros [Hkey Husers]. split; [|split; [|split]].
  - intros data uuid4 now.
    destruct (create_session_effect data uuid4 now w)
      as (_ & _ & [->|(row & Hs & Hid & Hu & Hnew & _ & Hnone)]); [done|].
    unfold sessions_ok. rewrite Hs. split.
    + rewrite fmap_app. apply NoDup_app. split; [done|]. split; [|apply NoDup_singleton].
      intros x Hx [->|Hnil]%elem_of_cons; [|by inversion Hnil].
      apply list_elem_of_fmap in Hx as (r' & E & Hr').
      apply (select_session_None _ _ _ Hnew Hr'). congruence.
    + unfold named_users in *. rewrite omap_app. apply NoDup_app.
      split; [done|]. split.
      * intros u Hu1 Hu2. simpl in Hu2. rewrite Hu in Hu2.
        destruct (userId data) as [[|c u']|] eqn:Hd; [by inversion Hu2| |by inversion Hu2].
        apply list_elem_of_singleton in Hu2 as ->.
        apply list_elem_of_omap in Hu1 as (r' & Hr' & E).
        specialize (Hnone (c :: u') eq_refl ltac:(done)).
        apply (select_session_of_user_None _ _ _ Hnone Hr').
        by destruct (Sess.user_id r') as [[|? ?]|]; simplify_eq.
      * simpl. rewrite Hu. destruct (userId data) as [[|c u']|];
          [constructor|apply NoDup_singleton|constructor].
  - intros req tmp doc now. unfold sessions_ok.
    destruct (upload_file_effect req tmp doc now w) as [-> _]. done.
  - intros document_id authorization.
    destruct (delete_document_effect document_id authorization w)
      as [(msg & code & -> & _)|(sid & r & _ & _ & _ & ->)]; done.
  - intros authorization. by rewrite get_documents_world.
Qed.
End invariants.

Lemma routes_keep_documents_ok_witness :
  documents_ok
    (snd (@upload_file ascii_runtime
            (text_upload (lit "notes.txt") (replicate 100 97))
            (lit "t") (lit "d9") 40 sessions_only_world)).
Proof.
  apply (@routes_keep_documents_ok ascii_runtime sessions_only_world).
  split; [apply Forall_nil_2|]. vm_compute. apply NoDup_nil_2.
Defined.

Lemma routes_keep_sessions_ok_witness :
  sessions_ok
    (snd (create_session {| userId := Some (lit "carol"); userPreferences := None |}
            (lit "s3") 3 example_world)).
Proof.
  apply (@routes_keep_sessions_ok ascii_runtime example_world).
  split; apply (bool_decide_unpack _); by vm_compute.
Defined.

(** ** How the routes compose *)

Lemma find_all_false {A} (f : A → bool) l :
  (∀ x, x ∈ l → f x = false) → find f l = None.
Proof.
  induction l as [|y l IH]; [done|]. intros Hf. simpl.
  rewrite (Hf y) by left. apply IH. intros x Hx. apply Hf. by right.
Qed.

Lemma find_app_Some {A} (f : A → bool) l k x :
  find f l = Some x → find f (l ++ k) = Some x.
Proof.
  induction l as [|y l IH]; [done|]. simpl. destruct (f y); [done|]. exact IH.
Qed.

Lemma filter_all {A} (P : A → Prop) `{∀ x, Decision (P x)} (l : list A) :
  (∀ x, x ∈ l → P x) → filter P l = l.
Proof.
  induction l as [|y l IH]; [done|]. intros HP.
  rewrite filter_cons_True by (apply HP; left).
  f_equal. apply IH. intros x Hx. apply HP. by right.
Qed.

Lemma summary_ids rows : Summary.id <$> map summary rows = Doc.id <$> rows.
Proof. induction rows as [|r rows IH]; [done|]. simpl. by f_equal. Qed.

Lemma get_documents_ids authorization sid w :
  session_of (default [] authorization) = Some sid → sid ≠ [] →
  ∃ docs, get_documents authorization w
          = ((Documents docs (length docs) (total_size docs), 200), w)
    ∧ ∀ i, i ∈ Summary.id <$> docs
           ↔ ∃ r, r ∈ documents w ∧ visible_to sid r ∧ Doc.id r = i.
Proof.
  intros Hs Hne. unfold get_documents. rewrite Hs.
  destruct sid as [|c sid]; [done|]. eexists. split; [reflexivity|].
  intros i. rewrite summary_ids, list_elem_of_fmap. unfold select_documents.
  setoid_rewrite merge_sort_Permutation. setoid_rewrite list_elem_of_filter.
  split; intros (r & Hr); exists r; intuition congruence.
Qed.

Lemma get_documents_listed authorization w docs n size w' :
  get_documents authorization w = ((Documents docs n size, 200), w') →
  ∃ sid, session_of (default [] authorization) = Some sid ∧ sid ≠ []
         ∧ w' = w ∧ docs = map summary (select_documents sid w).
Proof.
  unfold get_documents.
  destruct (session_of (default [] authorization)) as [[|c s]|]; [done| |done].
  intros [= <- _ _ <-]. by exists (c :: s).
Qed.

Section composition.
Context `{Runtime}.

(** X14: after an accepted upload, the listing of a session shows the new
    document exactly when that session is the uploader or the upload was
    marked public. *)
Theorem uploaded_document_listed (req : upload_request) (tmp doc : str) (now : N)
    (w w' : world) (d : Uploaded.t) (authorization : option str) (sid : str) :
  upload_file req tmp doc now w = ((Upload d, 200), w') →
  session_of (default [] authorization) = Some sid → sid ≠ [] →
  ∃ docs n size,
    get_documents authorization w' = ((Documents docs n size, 200), w')
    ∧ (Uploaded.id d ∈ Summary.id <$> docs
       ↔ session_of (default [] (Authorization req)) = Some sid
         ∨ lower (default (lit "false") (isPublic req)) = lit "true").
Proof.
  intros Hup Hs Hne.
  destruct (upload_file_effect req tmp doc now w) as [_ Hd]. rewrite Hup in Hd.
  destruct Hd as [(d' & row & sid0 & s & [= <-] & Hdocs & Hid & Hdoc & Hfresh & Hsid0
                    & _ & Hown & _ & Hpub & _)|(msg & code & [=] & _)].
  destruct (get_documents_ids authorization sid w' Hs Hne) as (docs & Hget & Hids).
  exists docs, (length docs), (total_size docs). split; [done|].
  rewrite Hids. cbn [snd] in Hdocs. rewrite Hdocs, Hsid0. split.
  - intros (r & [Hr|Hr]%elem_of_app & Hvis & Hr_id).
    + exfalso. apply (Hfresh r Hr). congruence.
    + apply list_elem_of_singleton in Hr as ->. destruct Hvis as [Hv|Hv].
      * left. congruence.
      * right. rewrite Hpub in Hv. by apply bool_decide_eq_true in Hv.
  - intros Hcase. exists row. split; [apply elem_of_app; right; left|].
    split; [|done]. destruct Hcase as [[= ->]|Hp]; [by left|right].
    rewrite Hpub. by apply bool_decide_eq_true.
Qed.

(** X15: the uploader can delete what it has just uploaded, which puts the
    documents table back as it was before the upload; a request with any
    other token is refused and changes nothing. *)
Theorem upload_then_delete (req : upload_request) (tmp doc : str) (now : N)
    (w w' : world) (d : Uploaded.t) :
  upload_file req tmp doc now w = ((Upload d, 200), w') →
  delete_document (Uploaded.id d) (Authorization req) w'
  = ((Deleted (lit "Document deleted successfully"), 200),
     set_documents w' (documents w))
  ∧ ∀ authorization,
      session_of (default [] authorization)
      ≠ session_of (default [] (Authorization req)) →
      ∃ msg code,
        delete_document (Uploaded.id d) authorization w' = ((Failure msg, code), w')
        ∧ code ≠ 200.
Proof.
  intros Hup.
  destruct (upload_file_effect req tmp doc now w) as [_ Hd]. rewrite Hup in Hd.
  destruct Hd as [(d' & row & sid0 & s & [= <-] & Hdocs & Hid & Hdoc & Hfresh & Hsid0
                    & Hne & Hown & _)|(msg & code & [=] & _)].
  cbn [snd] in Hdocs.
  assert (Hnone : ∀ sid, find (λ r, bool_decide (Doc.id r = Uploaded.id d
                                        ∧ Doc.uploaded_by r = Some sid))
                           (documents w) = None).
  { intros sid. apply find_all_false. intros r Hr. apply bool_decide_eq_false.
    intros [Hr_id _]. apply (Hfresh r Hr). congruence. }
  split.
  - unfold delete_document. rewrite Hsid0. destruct sid0 as [|c sid0]; [done|].
    unfold select_owned. rewrite Hdocs, find_snoc by apply Hnone.
    rewrite bool_decide_eq_true_2 by done.
    unfold delete_row. rewrite Hdocs, filter_app. f_equal. f_equal.
    rewrite filter_all.
    + rewrite filter_cons_False by (intros Hn; by apply Hn).
      by rewrite filter_nil, app_nil_r.
    + intros r Hr Hr_id. apply (Hfresh r Hr). congruence.
  - intros authorization Hother.
    destruct (delete_document_effect (Uploaded.id d) authorization w')
      as [(msg & code & -> & Hcode)|(sid & r & Hs & _ & Hsel & _)];
      [by exists msg, code|].
    exfalso. unfold select_owned in Hsel. rewrite Hdocs in Hsel.
    rewrite find_snoc in Hsel by apply Hnone.
    destruct (bool_decide (Doc.id row = Uploaded.id d ∧ Doc.uploaded_by row = Some sid))
      eqn:Hb; [|done].
    apply bool_decide_eq_true in Hb as [_ Hb]. apply Hother. congruence.
Qed.
End composition.

(** X16: after a successful deletion the documents are the old ones without
    the rows of that id, sessions and files are untouched, a second deletion
    of the same id answers 404, and no listing shows the id any more. *)
Theorem deleted_document_gone (document_id : str) (authorization : option str)
    (w w' : world) (message : str) :
  delete_document document_id authorization w = ((Deleted message, 200), w') →
  (∀ r, r ∈ documents w' ↔ r ∈ documents w ∧ Doc.id r ≠ document_id)
  ∧ sessions w' = sessions w ∧ files w' = files w
  ∧ delete_document document_id authorization w'
    = ((Failure (lit "Document not found or access denied"), 404), w')
  ∧ ∀ authorization' docs n size w'',
      get_documents authorization' w' = ((Documents docs n size, 200), w'') →
      document_id ∉ Summary.id <$> docs.
Proof.
  intros Hdel.
  destruct (delete_document_effect document_id authorization w)
    as [(msg & code & Hf & _)|(sid & r & Hs & Hne & _ & Hok)]; [congruence|].
  rewrite Hok in Hdel. injection Hdel as _ <-.
  assert (Hmem : ∀ r, r ∈ documents (delete_row document_id w)
                      ↔ r ∈ documents w ∧ Doc.id r ≠ document_id).
  { intros r'. unfold delete_row. cbn. rewrite list_elem_of_filter. tauto. }
  split; [exact Hmem|]. split; [done|]. split; [done|]. split.
  - unfold delete_document. rewrite Hs. destruct sid as [|c sid]; [done|].
    unfold select_owned. rewrite find_all_false; [done|].
    intros r' Hr'. apply Hmem in Hr' as [_ Hr']. apply bool_decide_eq_false. tauto.
  - intros authorization' docs n size w'' Hget.
    apply get_documents_listed in Hget as (sid' & _ & _ & _ & ->).
    rewrite summary_ids, list_elem_of_fmap. intros (r' & E & Hr').
    unfold select_documents in Hr'. rewrite merge_sort_Permutation in Hr'.
    apply list_elem_of_filter in Hr' as [_ Hr']. apply Hmem in Hr' as [_ Hr']. done.
Qed.

Lemma uploaded_document_listed_witness :
  let up := @upload_file ascii_runtime
              (text_upload (lit "notes.txt") (replicate 100 97))
              (lit "t") (lit "d9") 40 sessions_only_world in
  ∃ docs n size,
    get_documents (Some (lit "Bearer s2")) (snd up)
    = ((Documents docs n size, 200), snd up)
    ∧ lit "d9" ∈ Summary.id <$> docs.
Proof.
  cbv zeta.
  destruct (@uploaded_document_listed ascii_runtime
              (text_upload (lit "notes.txt") (replicate 100 97))
              (lit "t") (lit "d9") 40 sessions_only_world
              (snd (@upload_file ascii_runtime
                      (text_upload (lit "notes.txt") (replicate 100 97))
                      (lit "t") (lit "d9") 40 sessions_only_world))
              (@uploaded_json (lit "notes.txt") (lit "txt") (replicate 100 97) 100
                 (lit "d9"))
              (Some (lit "Bearer s2")) (lit "s2"))
    as (docs & n & size & Hget & Hiff); [by vm_compute|by vm_compute|done|].
  exists docs, n, size. split; [exact Hget|]. apply Hiff. right. by vm_compute.
Defined.

Lemma upload_then_delete_witness :
  let up := @upload_file ascii_runtime
              (text_upload (lit "notes.txt") (replicate 100 97))
              (lit "t") (lit "d9") 40 sessions_only_world in
  delete_document (lit "d9") (Some (lit "Bearer s1")) (snd up)
  = ((Deleted (lit "Document deleted successfully"), 200),
     set_documents (snd up) []).
Proof.
  cbv zeta.
  apply (@upload_then_delete ascii_runtime
           (text_upload (lit "notes.txt") (replicate 100 97))
           (lit "t") (lit "d9") 40 sessions_only_world
           (snd (@upload_file ascii_runtime
                   (text_upload (lit "notes.txt") (replicate 100 97))
                   (lit "t") (lit "d9") 40 sessions_only_world))
           (@uploaded_json (lit "notes.txt") (lit "txt") (replicate 100 97) 100
              (lit "d9"))).
  by vm_compute.
Defined.

Lemma deleted_document_gone_witness :
  let w' := snd (delete_document (lit "d1") (Some (lit "Bearer s1")) example_world) in
  delete_document (lit "d1") (Some (lit "Bearer s1")) w'
  = ((Failure (lit "Document not found or access denied"), 404), w').
Proof.
  cbv zeta.
  apply (deleted_document_gone (lit "d1") (Some (lit "Bearer s1")) example_world
           (snd (delete_document (lit "d1") (Some (lit "Bearer s1")) example_world))
           (lit "Document deleted successfully")).
  by vm_compute.
Defined.

(** ** Session tokens *)

Lemma create_session_answer data uuid4 now w sid tok w' :
  create_session data uuid4 now w = ((SessionCreated sid tok, 200), w') →
  tok = sid ∧ ∃ r, r ∈ sessions w' ∧ Sess.session_id r = sid
                   ∧ (∀ u, userId data = Some u → u ≠ [] → Sess.user_id r = Some u).
Proof.
  unfold create_session.
  destruct (userId data) as [[|c u]|] eqn:Hu.
  1,3: unfold insert_session; destruct (select_session uuid4 w); [done|];
       intros [= <- <- <-]; split; [done|]; eexists;
       (split; [apply elem_of_app; right; left|]); by split.
  destruct (select_session_of_user (c :: u) w) as [r0|] eqn:Hex.
  - intros [= <- <- <-]. split; [done|].
    apply select_session_of_user_Some in Hex as [Hin Hr0]. exists r0.
    split; [done|]. split; [done|]. by intros u' [= <-] _.
  - unfold insert_session. destruct (select_session uuid4 w); [done|].
    intros [= <- <- <-]. split; [done|]. eexists.
    split; [apply elem_of_app; right; left|]. split; [done|].
    by intros u' [= <-] _.
Qed.

Lemma select_session_elem sid w r :
  r ∈ sessions w → Sess.session_id r = sid → ∃ r', select_session sid w = Some r'.
Proof.
  intros Hin Hid. destruct (select_session sid w) as [r'|] eqn:E; [by exists r'|].
  by destruct (select_session_None _ _ _ E Hin).
Qed.

Section tokens.
Context `{Runtime}.

(** X17: a token that is a session of the store stays one, with the same
    row, through every route. *)
Theorem session_tokens_stay_valid (sid : str) (r : Sess.row) (w : world) :
  select_session sid w = Some r →
  (∀ data uuid4 now,
     select_session sid (snd (create_session data uuid4 now w)) = Some r)
  ∧ (∀ req tmp doc now,
       select_session sid (snd (upload_file req tmp doc now w)) = Some r)
  ∧ (∀ document_id authorization,
       select_session sid (snd (delete_document document_id authorization w))
       = Some r)
  ∧ (∀ authorization, select_session sid (snd (get_documents authorization w)) = Some r).
Proof.
  intros Hsel. split; [|split; [|split]].
  - intros data uuid4 now.
    destruct (create_session_effect data uuid4 now w)
      as (_ & _ & [->|(row & Hs & _)]); [done|].
    unfold select_session in *. rewrite Hs. by apply find_app_Some.
  - intros req tmp doc now. unfold select_session in *.
    by destruct (upload_file_effect req tmp doc now w) as [-> _].
  - intros document_id authorization.
    by destruct (delete_document_effect document_id authorization w)
      as [(msg & code & -> & _)|(sid' & r' & _ & _ & _ & ->)].
  - intros authorization. by rewrite get_documents_world.
Qed.

Lemma upload_with_session_not_401 req tmp doc now w sid r :
  session_of (default [] (Authorization req)) = Some sid → sid ≠ [] →
  select_session sid w = Some r →
  snd (fst (upload_file req tmp doc now w)) ≠ 401.
Proof.
  intros Hs Hne Hsel.
  destruct (upload_checks req w) as [resp|[[sid' f] pub]] eqn:Hc.
  - rewrite (upload_file_rejected _ _ _ _ _ _ Hc). cbn [fst].
    unfold upload_checks in Hc. rewrite Hs in Hc. destruct sid as [|c sid]; [done|].
    rewrite Hsel in Hc. destruct (file req) as [f|]; [|by injection Hc as <-].
    destruct (filename f) as [|d n]; [by injection Hc as <-|].
    destruct (allowed_file (d :: n)); [done|by injection Hc as <-].
  - destruct (upload_file_after_checks req tmp doc now w _ _ _ Hc)
      as [(msg & code & Hcode & ->)|(ext & raw & _ & _ & _ & _ & ->)]; [|done].
    by destruct Hcode as [-> | ->].
Qed.

(** X18: the token answered by [create_session] is a session of the store
    afterwards, carrying the non-empty user id of the request; sent back as
    "Bearer " + token (a token without the letter [B], as any UUID), it gets
    an upload past the session check: the answer is not a 401. *)
Theorem created_token_opens_upload (data : session_request) (uuid4 : str) (now : N)
    (w w' : world) (sid tok : str) (req : upload_request) (tmp doc : str) (now' : N) :
  create_session data uuid4 now w = ((SessionCreated sid tok, 200), w') →
  66 ∉ tok → tok ≠ [] →
  Authorization req = Some (lit "Bearer " ++ tok) →
  (∃ r, select_session tok w' = Some r)
  ∧ (∃ r, r ∈ sessions w' ∧ Sess.session_id r = tok
          ∧ ∀ u, userId data = Some u → u ≠ [] → Sess.user_id r = Some u)
  ∧ snd (fst (upload_file req tmp doc now' w')) ≠ 401.
Proof.
  intros Hcs HB Hne Hreq.
  destruct (create_session_answer _ _ _ _ _ _ _ Hcs) as [-> (r & Hin & Hid & Hu)].
  destruct (select_session_elem _ _ _ Hin Hid) as [r' Hsel].
  split; [by exists r'|]. split; [by exists r|].
  apply (upload_with_session_not_401 req tmp doc now' w' sid r'); [|done|done].
  rewrite Hreq. by apply session_of_prefixed.
Qed.

(** X19: when [secure_filename] leaves a name without ['.'] (as for
    ".pdf", which the type check accepts), the upload past the checks ends
    in a 500 "list index out of range": no document is stored and the
    temporary file is removed. *)
Theorem upload_name_without_dot (req : upload_request) (tmp doc : str) (now : N)
    (w : world) (sid : str) (f : FileStorage) (pub : bool) :
  upload_checks req w = inr (sid, f, pub) →
  contains 46 (secure_filename (filename f)) = false →
  upload_file req tmp doc now w
  = ((Failure (lit "list index out of range"), 500),
     set_files w (delete (temp_path tmp (secure_filename (filename f))) (files w))).
Proof.
  intros Hc Hdot. unfold upload_file. rewrite Hc, upload_steps_run. cbv zeta.
  unfold rsplit1. destruct (rcut 46 (secure_filename (filename f))) as [[a b]|] eqn:E.
  - apply rcut_Some in E as [E _].
    assert (Ht : contains 46 (secure_filename (filename f)) = true); [|congruence].
    apply contains_elem_of. rewrite E. apply elem_of_app. right. left.
  - cbn [lookup list_lookup]. simpl. by rewrite upload_handler_gone.
Qed.
End tokens.

Lemma session_tokens_stay_valid_witness :
  select_session (lit "s1")
    (snd (create_session {| userId := Some (lit "carol"); userPreferences := None |}
            (lit "s3") 3 example_world))
  = Some session_s1.
Proof.
  apply (@session_tokens_stay_valid ascii_runtime (lit "s1") session_s1 example_world).
  by vm_compute.
Defined.

Lemma created_token_opens_upload_witness :
  let w' := snd (create_session {| userId := Some (lit "carol"); userPreferences := None |}
                   (lit "s3") 3 example_world) in
  ∃ r, select_session (lit "s3") w' = Some r.
Proof.
  cbv zeta.
  refine (proj1 (@created_token_opens_upload ascii_runtime
            {| userId := Some (lit "carol"); userPreferences := None |}
            (lit "s3") 3 example_world
            (snd (create_session {| userId := Some (lit "carol"); userPreferences := None |}
                    (lit "s3") 3 example_world))
            (lit "s3") (lit "s3")
            {| Authorization := Some (lit "Bearer s3"); file := None; isPublic := None |}
            [] [] 0 _ _ _ _)).
  - by vm_compute.
  - apply (bool_decide_unpack _). by vm_compute.
  - done.
  - by vm_compute.
Defined.

Lemma upload_name_without_dot_witness :
  fst (@upload_file dot_stripping_runtime (text_upload (lit ".pdf") (lit "hello"))
         (lit "t") (lit "d9") 40 example_world)
  = (Failure (lit "list index out of range"), 500).
Proof.
  rewrite (@upload_name_without_dot dot_stripping_runtime
             (text_upload (lit ".pdf") (lit "hello")) (lit "t") (lit "d9") 40
             example_world (lit "s1")
             {| filename := lit ".pdf";
                stream := {| st_size := 5;
                             as_pdf := inl (PdfReadError (lit "EOF marker not found"));
                             as_text := inr (lit "hello") |} |} true);
    [done|by vm_compute|by vm_compute].
Defined.

(** ** The gate, on the text as extracted *)

Section short_text.
Context `{Runtime}.

(** X20: an upload whose extracted text has fewer than 100 characters is
    always refused with the 400 "too short", since cleaning never lengthens
    a text; nothing is stored. *)
Theorem short_text_rejected (req : upload_request) (tmp doc : str) (now : N)
    (w : world) (sid : str) (f : FileStorage) (pub : bool) (ext raw : str) :
  upload_checks req w = inr (sid, f, pub) →
  let name := secure_filename (filename f) in
  let p := temp_path tmp name in
  rsplit1 46 name !! 1%nat = Some ext →
  fst (extract (lower ext) p (set_files w (<[p := stream f]> (files w))))
  = inr (Some raw) →
  (length raw < 100)%nat →
  upload_file req tmp doc now w
  = ((Failure (lit "Document content is too short to be useful"), 400),
     set_files w (delete p (files w))).
Proof.
  intros Hc name p Hext Hraw Hlen.
  unfold upload_file. rewrite Hc, upload_steps_run. cbv zeta.
  fold name. fold p. rewrite Hext, Hraw.
  pose proof (length_join_split_from [] raw) as Hle.
  rewrite <- clean_content_words in Hle. simpl in Hle.
  destruct (Nat.ltb_spec (length (clean_content raw)) 100) as [_|Hge]; [done|lia].
Qed.
End short_text.

Lemma short_text_rejected_witness :
  fst (@upload_file ascii_runtime (text_upload (lit "notes.txt") (lit "hello"))
         (lit "t") (lit "d9") 40 example_world)
  = (Failure (lit "Document content is too short to be useful"), 400).
Proof.
  rewrite (@short_text_rejected ascii_runtime
             (text_upload (lit "notes.txt") (lit "hello")) (lit "t") (lit "d9") 40
             example_world (lit "s1")
             {| filename := lit "notes.txt";
                stream := {| st_size := 5;
                             as_pdf := inl (PdfReadError (lit "EOF marker not found"));
                             as_text := inr (lit "hello") |} |}
             true (lit "txt") (lit "hello"));
    [done|by vm_compute|by vm_compute|by vm_compute|vm_compute; lia].
Defined.

(** ** The remaining routes *)

Lemma endswith_app suffix s :
  endswith suffix s = true ↔ ∃ stem, s = stem ++ suffix.
Proof.
  unfold endswith. split.
  - intros [rest E]%startswith_app. exists (reverse rest).
    apply (f_equal reverse) in E. rewrite reverse_involutive in E.
    by rewrite E, reverse_app, reverse_involutive.
  - intros [stem ->]. rewrite reverse_app. apply startswith_refl.
Qed.

Lemma filter_head_first {A} (f : A → bool) l x rest :
  List.filter f l = x :: rest →
  ∃ before after, l = before ++ x :: after ∧ f x = true
                  ∧ Forall (λ y, f y = false) before.
Proof.
  induction l as [|y l IH]; [done|]. simpl. destruct (f y) eqn:Hy.
  - intros [= <- _]. by exists [], l.
  - intros Hf. destruct (IH Hf) as (before & after & -> & Hx & Hb).
    exists (y :: before), after. split; [done|]. split; [done|]. by constructor.
Qed.

Lemma filter_nil_all {A} (f : A → bool) l :
  List.filter f l = [] → Forall (λ y, f y = false) l.
Proof.
  induction l as [|y l IH]; [constructor|]. simpl. destruct (f y) eqn:Hy; [done|].
  intros Hf. constructor; [done|by apply IH].
Qed.

Lemma process_pdf_nonempty p w text w' :
  process_pdf p w = (inr text, w') → text ≠ [].
Proof.
  unfold process_pdf, reraise, mbind, M_bind, bind, open, lift, mret, M_ret, ret, raise.
  destruct (files w !! p) as [f|]; [|done].
  destruct (as_pdf f) as [e|r]; [done|].
  destruct (process_pages [] (pages r)) as [e|t]; [done|].
  destruct (strip t) as [|c t'] eqn:E; [done|]. by intros [= <- _].
Qed.

Lemma preview_length content : (length (preview content) ≤ 503)%nat.
Proof.
  assert (Hdots : length (lit "...") = 3%nat) by reflexivity.
  unfold preview. destruct (Nat.ltb_spec 500 (length content)) as [Hlt|Hle]; [|lia].
  rewrite length_app, length_take, Hdots. lia.
Qed.

(** X21: GET /test-pdf answers 404 exactly when no listed name ends in
    ".pdf"; otherwise it reads the first listed name that does, and a 200
    carries that name, the length of its text (never 0) and a preview of at
    most 503 characters. *)
Theorem test_pdf_outcome (names : list str) (w : world) :
  match test_pdf (inr names) w with
  | (TestPdf name n pre, code) =>
      code = 200
      ∧ (∃ before after stem text,
           names = before ++ name :: after ∧ name = stem ++ lit ".pdf"
           ∧ Forall (λ y, endswith (lit ".pdf") y = false) before
           ∧ process_pdf (UPLOAD_FOLDER ++ lit "/" ++ name) w = (inr text, w)
           ∧ n = length text ∧ pre = preview text)
      ∧ (0 < n)%nat ∧ (length pre ≤ 503)%nat
  | (TestFailure e, code) =>
      (code = 404 ∧ Forall (λ y, endswith (lit ".pdf") y = false) names)
      ∨ (code = 500 ∧ ∃ y, y ∈ names ∧ endswith (lit ".pdf") y = true)
  end.
Proof.
  unfold test_pdf.
  destruct (List.filter (endswith (lit ".pdf")) names) as [|name rest] eqn:Hf.
  - left. split; [done|]. by apply filter_nil_all.
  - destruct (filter_head_first _ _ _ _ Hf) as (before & after & E & Hname & Hb).
    pose proof (process_pdf_world (UPLOAD_FOLDER ++ lit "/" ++ name) w) as Hw.
    destruct (process_pdf (UPLOAD_FOLDER ++ lit "/" ++ name) w) as [[e|text] w1] eqn:Hp;
      simpl in Hw; subst w1; cbn [fst].
    + right. split; [done|]. exists name. split; [|done].
      rewrite E. apply elem_of_app. right. left.
    + split; [done|]. pose proof (process_pdf_nonempty _ _ _ _ Hp) as Hne.
      split; [|split].
      * apply endswith_app in Hname as [stem Hstem].
        by exists before, after, stem, text.
      * destruct text; [done|simpl; lia].
      * apply preview_length.
Qed.

Section plant_properties.
Context `{Runtime} {P : Type}.

(** X22: POST /identify-plant answers 200 only when the token is non-empty,
    the file name has an extension that lower-cases to [jpg], [jpeg] or
    [png], the API key is set and the call to the API does not raise; its
    200 never says [is_plant], never gives plant details, and its confidence
    is 0 unless the first suggestion has a probability; every other answer
    is a 401, a 400 or a 500. *)
Theorem identify_plant_outcome (req : plant_request) (api_key : option str)
    (reply : plant_reply P) :
  match identify_plant req api_key reply with
  | (Plant is_plant plant_details c, code) =>
      code = 200 ∧ is_plant = false ∧ plant_details = []
      ∧ (∃ c0 sid, session_of (default [] (plant_Authorization req)) = Some (c0 :: sid))
      ∧ (∃ file stem ext, plant_file req = Some file
           ∧ filename file = stem ++ lit "." ++ ext ∧ (46 ∉ ext)
           ∧ lower ext ∈ [lit "jpg"; lit "jpeg"; lit "png"])
      ∧ (∃ k0 key, api_key = Some (k0 :: key))
      ∧ (∃ suggestions, reply = inr suggestions
           ∧ c = match suggestions with
                 | Some probability :: _ => Times100 probability
                 | _ => Zero
                 end)
  | (PlantFailure e, code) => code = 401 ∨ code = 400 ∨ code = 500
  end.
Proof.
  unfold identify_plant.
  destruct (session_of (default [] (plant_Authorization req))) as [[|c0 sid]|];
    [by left| |by left].
  destruct (plant_file req) as [file|]; [|right; by left].
  destruct (filename file) as [|d n] eqn:En; [right; by left|].
  rewrite <- En.
  destruct (bool_decide_reflect
              ((if contains 46 (filename file)
                then lower (default [] (rsplit1 46 (filename file) !! 1%nat))
                else []) ∈ [lit "jpg"; lit "jpeg"; lit "png"])) as [Hext|Hext];
    cbn [negb]; [|right; by left].
  destruct api_key as [[|k0 key]|]; [right; by right| |right; by right].
  destruct reply as [e|suggestions]; [right; by right|].
  split; [done|]. split; [done|]. split; [done|]. split; [by eexists _, _|].
  split; [|split; [by eexists _, _|]].
  - destruct (contains 46 (filename file)) eqn:Hdot.
    + unfold rsplit1 in Hext.
      destruct (rcut 46 (filename file)) as [[stem ext]|] eqn:E.
      * apply rcut_Some in E as [E Hno]. by exists file, stem, ext.
      * apply rcut_None in E. congruence.
    + exfalso. vm_compute in Hext.
      repeat (apply elem_of_cons in Hext as [Hext|Hext]; [done|]).
      by inversion Hext.
  - exists suggestions. split; [done|]. by destruct suggestions as [|[p|] rest].
Qed.
End plant_properties.

(** ** The dashboard's text *)

Lemma extract_pages_cons text pg ps :
  extract_pages text (pg :: ps) = extract_pages (text ++ page_line pg) ps.
Proof. by destruct pg as [[|c t]|e]. Qed.

Lemma extract_pages_lines text ps :
  extract_pages text ps = text ++ concat (page_line <$> ps).
Proof.
  revert text. induction ps as [|pg ps IH]; intros text; [by rewrite app_nil_r|].
  rewrite extract_pages_cons, IH. cbn [fmap list_fmap concat].
  by rewrite app_assoc.
Qed.

Lemma page_line_newline pg : ∃ body, page_line pg = body ++ [LF].
Proof.
  destruct pg as [[|c t]|e]; simpl.
  - by exists (lit "[Empty page]").
  - by exists (c :: t).
  - exists (lit "[Error extracting page: " ++ str_of_exn e ++ lit "]").
    by rewrite <- !app_assoc.
Qed.

(** X23: for a PDF that opens and is not marked encrypted, the dashboard's
    text is made of one piece per page, in page order: the page's text, or
    "[Empty page]", or an error marker, each closed by a newline; so it has
    at least as many newlines as the PDF has pages. *)
Theorem extract_pdf_text_lines (f : file_data) (reader : PdfReader) :
  as_pdf f = inr reader → is_encrypted reader = false →
  extract_pdf_text (inr f) = concat (page_line <$> pages reader)
  ∧ (length (pages reader)
     ≤ length (filter (λ c, c = LF) (extract_pdf_text (inr f))))%nat.
Proof.
  intros Hf Henc. unfold extract_pdf_text. rewrite Hf, Henc.
  rewrite extract_pages_lines. cbn [app]. split; [done|].
  induction (pages reader) as [|pg ps IH]; [done|].
  cbn [fmap list_fmap concat length]. rewrite filter_app, length_app.
  destruct (page_line_newline pg) as [body ->].
  rewrite filter_app, length_app. rewrite filter_cons_True by done.
  simpl. simpl in IH. lia.
Qed.

Lemma extract_pdf_text_lines_witness :
  extract_pdf_text (inr pdf_with_bad_page)
  = concat (page_line <$> [PageText (lit "page one");
                           PageRaises (Exception (lit "bad stream"));
                           PageText (lit "page three")]).
Proof.
  apply (extract_pdf_text_lines pdf_with_bad_page
           {| is_encrypted := false;
              pages := [PageText (lit "page one");
                        PageRaises (Exception (lit "bad stream"));
                        PageText (lit "page three")] |});
    reflexivity.
Defined.
